(** * Well-log documents built from tabular sources

    A shallow embedding of [example_well_log_synced.py] (and of the resolver
    it shares with [example_well_log_with_wellpicks.py]): the depositional
    environment standard, the per-well log document and the callback that
    lays several wells side by side; and of the document, the picks and
    the callback of [example_well_log_with_wellpicks.py].

    Conventions.
    - Text is a [string] whose characters are the code points 0..255.
    - A pandas frame is the list of its rows, in index order.  The labels
      of the standard are text and the depths are numbers; the unit and
      the depositional environment of an interval may be missing (the
      NaN of an empty cell).
    - A depth is a rational: the code compares depths and never computes
      with them.
    - A Python [dict] is an insertion-ordered association list ([Dict]).
    - A Python call either returns or raises ([outcome]).  The third
      outcome, [Beyond], marks a pattern written in regular-expression
      syntax that the model of [re] below does not cover; nothing is
      claimed about such a call.
    - What the code prints is left out. *)

From Stdlib Require Import String Ascii List Bool Arith ZArith QArith Lia.
Import ListNotations.
Local Close Scope Q_scope.
Local Open Scope string_scope.
Local Open Scope nat_scope.

Set Implicit Arguments.

(* ------------------------------------------------------------------ *)
(** ** Outcomes of a call *)

Inductive exn : Type :=
| IndexError      (* [values[0]] on an empty selection *)
| KeyError        (* a [dict] subscript that is missing *)
| ReError.        (* [re.error]: the pattern does not compile *)

(** [LookupError] is the base class of [IndexError] and [KeyError];
    [re.error] derives from [Exception] directly. *)
Definition is_LookupError (e : exn) : bool :=
  match e with
  | IndexError | KeyError => true
  | ReError => false
  end.

Inductive outcome (A : Type) : Type :=
| Returns (a : A)
| Raises (e : exn)
| Beyond.

Arguments Raises {A} e.
Arguments Beyond {A}.

Definition bind {A B : Type} (m : outcome A) (k : A -> outcome B) : outcome B :=
  match m with
  | Returns a => k a
  | Raises e => Raises e
  | Beyond => Beyond
  end.

Notation "x <- m ;; k" := (bind m (fun x => k))
  (at level 61, m at next level, right associativity).

(** A list comprehension whose body may raise: left to right, the first
    failure ends the loop. *)
Fixpoint for_each {A B : Type} (f : A -> outcome B) (l : list A) : outcome (list B) :=
  match l with
  | [] => Returns []
  | a :: l' => b <- f a ;; bs <- for_each f l' ;; Returns (b :: bs)
  end.

(* ------------------------------------------------------------------ *)
(** ** Text *)

Module Text.

Definition newline : ascii := ascii_of_nat 10.

(** [str.lower] on one code point below 256: the letters A..Z and the
    capital letters of the Latin-1 block (all of 192..222 but the
    multiplication sign 215) move up by 32. *)
Definition lower (c : ascii) : ascii :=
  let n := nat_of_ascii c in
  if ((65 <=? n) && (n <=? 90)) || ((192 <=? n) && (n <=? 222) && negb (n =? 215))
  then ascii_of_nat (n + 32)
  else c.

Fixpoint lower_str (s : string) : string :=
  match s with
  | EmptyString => EmptyString
  | String c s' => String (lower c) (lower_str s')
  end.

(** Two code points that differ in case at most. *)
Definition ci_eq (a b : ascii) : bool := Ascii.eqb (lower a) (lower b).

(** [ci_prefix p s]: [p] and a prefix of [s] differ in case at most. *)
Fixpoint ci_prefix (p s : string) : bool :=
  match p, s with
  | EmptyString, _ => true
  | String _ _, EmptyString => false
  | String a p', String b s' => ci_eq a b && ci_prefix p' s'
  end.

(** The specification's words, "case-insensitive substring": [p] occurs
    in [s] when case is ignored. *)
Fixpoint ci_substring (p s : string) : bool :=
  ci_prefix p s ||
  match s with
  | EmptyString => false
  | String _ s' => ci_substring p s'
  end.

(** [c in chars] *)
Definition is_in (c : ascii) (chars : string) : bool :=
  existsb (Ascii.eqb c) (list_ascii_of_string chars).

(** The characters that [re] does not read as themselves
    ([SPECIAL_CHARS] of the pattern parser). *)
Definition special (c : ascii) : bool := is_in c ".\[{()*+?^$|".

Fixpoint plain (s : string) : bool :=
  match s with
  | EmptyString => true
  | String c s' => negb (special c) && plain s'
  end.

Definition is_alnum (c : ascii) : bool :=
  let n := nat_of_ascii c in
  ((48 <=? n) && (n <=? 57)) || ((65 <=? n) && (n <=? 90)) || ((97 <=? n) && (n <=? 122)).

End Text.

(* ------------------------------------------------------------------ *)
(** ** The fragment of [re] that the resolver is checked against *)

Module Re.
Import Text.

Inductive regex : Type :=
| Void                       (* matches nothing; arises in derivatives only *)
| Eps                        (* the empty pattern *)
| Lit (c : ascii)            (* a literal character *)
| Dot                        (* [.] without DOTALL: anything but a newline *)
| Cat (r s : regex)
| Alt (r s : regex)          (* [r|s] *)
| Star (r : regex).          (* [r*] *)

Definition Plus (r : regex) : regex := Cat r (Star r).     (* [r+] *)
Definition Opt (r : regex) : regex := Alt r Eps.           (* [r?] *)

Section Matching.
(** [re.IGNORECASE] *)
Variable ignorecase : bool.

Definition chr_eq (c x : ascii) : bool :=
  if ignorecase then ci_eq c x else Ascii.eqb c x.

(** The strings a pattern matches in full. *)
Inductive lang : regex -> string -> Prop :=
| lang_eps : lang Eps ""
| lang_lit c x : chr_eq c x = true -> lang (Lit c) (String x "")
| lang_dot x : x <> newline -> lang Dot (String x "")
| lang_cat r s u v : lang r u -> lang s v -> lang (Cat r s) (u ++ v)
| lang_alt_l r s u : lang r u -> lang (Alt r s) u
| lang_alt_r r s u : lang s u -> lang (Alt r s) u
| lang_star_nil r : lang (Star r) ""
| lang_star_app r u v : lang r u -> lang (Star r) v -> lang (Star r) (u ++ v).

Fixpoint nullable (r : regex) : bool :=
  match r with
  | Void | Lit _ | Dot => false
  | Eps | Star _ => true
  | Cat r s => nullable r && nullable s
  | Alt r s => nullable r || nullable s
  end.

(** What is left of [r] once [x] has been read. *)
Fixpoint deriv (x : ascii) (r : regex) : regex :=
  match r with
  | Void | Eps => Void
  | Lit c => if chr_eq c x then Eps else Void
  | Dot => if Ascii.eqb x newline then Void else Eps
  | Cat r s =>
      if nullable r then Alt (Cat (deriv x r) s) (deriv x s)
      else Cat (deriv x r) s
  | Alt r s => Alt (deriv x r) (deriv x s)
  | Star r => Cat (deriv x r) (Star r)
  end.

(** [pattern.match(s) is not None]: some prefix of [s] matches. *)
Fixpoint match_prefix (r : regex) (s : string) : bool :=
  nullable r ||
  match s with
  | EmptyString => false
  | String x s' => match_prefix (deriv x r) s'
  end.

(** [pattern.search(s) is not None]: a match starts somewhere in [s]. *)
Fixpoint search (r : regex) (s : string) : bool :=
  match_prefix r s ||
  match s with
  | EmptyString => false
  | String _ s' => search r s'
  end.
End Matching.

(** *** Reading a pattern

    [re] reads a pattern once, from left to right, with one recursive
    call per parenthesis; the pending calls are kept here as a stack of
    frames.  Handled: literals, [\] before a character that is neither
    a letter nor a digit, [.], the greedy [*], [+] and [?], [|] and
    plain groups.  Character sets, counted repetition, anchors, lazy and
    possessive repetition, [(?...)] and the letter and digit escapes are
    outside ([Beyond]). *)

(** An element of the sequence being read; [it_rep] says that it is a
    repetition already, which cannot be repeated once more. *)
Record item : Type := { it_re : regex; it_rep : bool }.

(** The branches of the group being read that are complete, and the
    sequence of the branch in progress, both latest first. *)
Record frame : Type := { alts : list regex; items : list item }.

Definition no_frame : frame := {| alts := []; items := [] |}.

Definition seq_of (its : list item) : regex :=
  fold_left (fun acc it => Cat (it_re it) acc) its Eps.

Definition close (f : frame) : regex :=
  fold_left (fun acc a => Alt a acc) (alts f) (seq_of (items f)).

Definition push (r : regex) (rep : bool) (f : frame) : frame :=
  {| alts := alts f; items := {| it_re := r; it_rep := rep |} :: items f |}.

Definition repeat_of (op : ascii) (r : regex) : regex :=
  if Ascii.eqb op "*" then Star r
  else if Ascii.eqb op "+" then Plus r
  else Opt r.

(** Does the text start with one of [chars]? *)
Definition next_in (s : string) (chars : string) : bool :=
  match s with
  | EmptyString => false
  | String c _ => is_in c chars
  end.

Fixpoint parse_from (cur : frame) (stack : list frame) (s : string)
  : outcome regex :=
  match s with
  | EmptyString =>
      match stack with
      | [] => Returns (close cur)
      | _ :: _ => Raises ReError            (* missing ), unterminated subpattern *)
      end
  | String c rest =>
      if is_in c "|" then
        parse_from {| alts := seq_of (items cur) :: alts cur; items := [] |}
                   stack rest
      else if is_in c ")" then
        match stack with
        | [] => Raises ReError              (* unbalanced parenthesis *)
        | outer :: stack' => parse_from (push (close cur) false outer) stack' rest
        end
      else if is_in c "\" then
        match rest with
        | EmptyString => Raises ReError     (* bad escape (end of pattern) *)
        | String e rest' =>
            if is_alnum e then Beyond
            else parse_from (push (Lit e) false cur) stack rest'
        end
      else if is_in c "[{^$" then Beyond
      else if is_in c "*+?" then
        match items cur with
        | [] => Raises ReError              (* nothing to repeat *)
        | it :: its =>
            if it_rep it then Raises ReError  (* multiple repeat *)
            else if next_in rest "?+" then Beyond
            else parse_from
                   (push (repeat_of c (it_re it)) true
                         {| alts := alts cur; items := its |})
                   stack rest
        end
      else if is_in c "." then parse_from (push Dot false cur) stack rest
      else if is_in c "(" then
        if next_in rest "?" then Beyond
        else parse_from no_frame (cur :: stack) rest
      else parse_from (push (Lit c) false cur) stack rest
  end.

(** [re.compile(pattern)] *)
Definition compile (pattern : string) : outcome regex :=
  parse_from no_frame [] pattern.

(** The pattern that a text without special characters stands for. *)
Fixpoint lits_onto (q : string) (tail : regex) : regex :=
  match q with
  | EmptyString => tail
  | String c q' => Cat (Lit c) (lits_onto q' tail)
  end.

Definition lits (q : string) : regex := lits_onto q Eps.

(** The frame after reading the literals [q]. *)
Fixpoint push_lits (q : string) (cur : frame) : frame :=
  match q with
  | EmptyString => cur
  | String c q' => push_lits q' (push (Lit c) false cur)
  end.

End Re.

(* ------------------------------------------------------------------ *)
(** ** Cells that may be missing *)

(** A cell of a column of texts: a text, or nothing (pandas reads an
    empty cell as the float [nan]). *)
Inductive label : Type :=
| Text (s : string)
| Missing.

Coercion Text : string >-> label.

(** Equality of cells as [Series.unique()] takes it: the missing cells
    of a column are one value. *)
Definition label_eqb (a b : label) : bool :=
  match a, b with
  | Text x, Text y => String.eqb x y
  | Missing, Missing => true
  | _, _ => false
  end.

(* ------------------------------------------------------------------ *)
(** ** Dictionaries *)

Module Dict.

(** Equality of keys as the lookup of a [dict] takes it: a [nan] is
    equal to no key, so that the [nan] of a row is not found among the
    keys and a subscript by it raises [KeyError]. *)
Definition key_eqb (a b : label) : bool :=
  match a, b with
  | Text x, Text y => String.eqb x y
  | _, _ => false
  end.

Section Dict.
Variable V : Type.

Definition dict : Type := list (label * V).

(** [list(d)] *)
Definition keys (d : dict) : list label := map fst d.

(** [d.get(k)] *)
Fixpoint get (k : label) (d : dict) : option V :=
  match d with
  | [] => None
  | (k', v) :: d' => if key_eqb k k' then Some v else get k d'
  end.

(** [d[k] = v]: a key that is present keeps its place and takes the new
    value, a new key goes last. *)
Fixpoint set (k : label) (v : V) (d : dict) : dict :=
  match d with
  | [] => [(k, v)]
  | (k', v') :: d' =>
      if key_eqb k k' then (k', v) :: d' else (k', v') :: set k v d'
  end.

(** [d.update(pairs)], the assignments made one after the other. *)
Definition update (d : dict) (pairs : list (label * V)) : dict :=
  fold_left (fun d kv => set (fst kv) (snd kv) d) pairs d.

(** A dictionary display or comprehension. *)
Definition of_list (pairs : list (label * V)) : dict := update [] pairs.

(** [d[k]] *)
Definition subscript (d : dict) (k : label) : outcome V :=
  match get k d with
  | Some v => Returns v
  | None => Raises KeyError
  end.
End Dict.
End Dict.

(* ------------------------------------------------------------------ *)
(** ** Tables and documents *)

(** A cell of a document: a depth, the [nan] that pandas returns for the
    minimum of no rows, an integer code, or [None]. *)
Inductive value : Type :=
| VFloat (q : Q)
| VNaN
| VInt (z : Z)
| VNone.

(** A row of the colour standard (columns [DEPOSITIONAL ENVIRONMENT],
    [SMDA code], [R], [G], [B]). *)
Record std_row : Type := {
  DEPOSITIONAL_ENVIRONMENT : string;
  SMDA_code : Z;
  R : Z;
  G : Z;
  B : Z
}.

(** A row of the interval table.  The cell of the unit may be missing.
    The depositional environment is [None] when the cell does not hold a
    [str] (pandas reads a missing cell as a float [nan]). *)
Record lith_row : Type := {
  unique_wellbore_identifier : string;
  Depth_top : Q;
  Depth_base : Q;
  Lithostrat_unit : label;
  Depositional_Environment : option string
}.

Record curve : Type := {
  curve_name : string;
  description : string;
  quantity : string;
  curve_unit : string;
  valueType : string;
  dimensions : Z
}.

Record log_header : Type := {
  name : string;
  well : string;
  startIndex : value;
  endIndex : value;
  step : value
}.

(** An entry of [metadata_discrete]: [objects] maps a label to
    [[color, code]]. *)
Record discrete_block : Type := {
  attributes : list string;
  objects : Dict.dict (list Z * Z)
}.

Record well_log : Type := {
  header : log_header;
  curves : list curve;
  data : list (list value);
  metadata_discrete : Dict.dict discrete_block
}.

(** Column [i] of the data rows. *)
Definition column (i : nat) (d : list (list value)) : list value :=
  map (fun cells => nth i cells VNaN) d.

(** [metadata_discrete] has, under the name of a curve, an object that
    carries the code. *)
Definition has_entry (md : Dict.dict discrete_block) (curve : string) (code : Z)
  : Prop :=
  exists block label color,
    Dict.get curve md = Some block /\
    Dict.get label (objects block) = Some (color, code).

Record plot : Type := {
  plot_name : string;
  plot_type : string;
  colorTable : option string
}.

Record template : Type := {
  template_name : string;
  scale_primary : string;
  tracks : list (list plot)
}.

(** *** What pandas does to a column *)

(** [Series.unique()]: the values in the order they first appear. *)
Fixpoint unique (l : list string) : list string :=
  match l with
  | [] => []
  | x :: l' => x :: filter (fun y => negb (String.eqb y x)) (unique l')
  end.

(** [Series.unique()] of a column with missing cells: [nan] is one of
    the values, in its place of first appearance. *)
Fixpoint unique_labels (l : list label) : list label :=
  match l with
  | [] => []
  | x :: l' => x :: filter (fun y => negb (label_eqb y x)) (unique_labels l')
  end.

(** [enumerate], counting from [start]. *)
Fixpoint enumerate_from {A : Type} (start : Z) (l : list A) : list (Z * A) :=
  match l with
  | [] => []
  | x :: l' => (start, x) :: enumerate_from (start + 1) l'
  end.

Definition enumerate {A : Type} (l : list A) : list (Z * A) := enumerate_from 0 l.

Definition qmin (a b : Q) : Q := if Qle_bool a b then a else b.
Definition qmax (a b : Q) : Q := if Qle_bool a b then b else a.

(** [Series.min()] and [Series.max()] of a column of numbers; of no rows
    they are [nan]. *)
Definition series_min (l : list Q) : value :=
  match l with
  | [] => VNaN
  | x :: l' => VFloat (fold_left qmin l' x)
  end.

Definition series_max (l : list Q) : value :=
  match l with
  | [] => VNaN
  | x :: l' => VFloat (fold_left qmax l' x)
  end.

(* ------------------------------------------------------------------ *)
(** ** class DepositionalEnvironmentSMDAStandard

    The class reads the same in both scripts. *)

Module DepositionalEnvironmentSMDAStandard.

(** [self._df] *)
Definition t : Type := list std_row.

Definition get_dep_environment_for_smda_code (self : t) (smda_code : Z)
  : outcome string :=
  match filter (fun row => Z.eqb (SMDA_code row) smda_code) self with
  | [] => Raises IndexError
  | row :: _ => Returns (DEPOSITIONAL_ENVIRONMENT row)
  end.

(** [str.contains(dep_env, flags=re.IGNORECASE)] compiles [dep_env] as a
    pattern and searches every label for it; [.values[0]] takes the
    first row kept. *)
Definition get_smda_code_for_dep_environment (self : t) (dep_env : string)
  : outcome Z :=
  pat <- Re.compile dep_env ;;
  match filter (fun row => Re.search true pat (DEPOSITIONAL_ENVIRONMENT row)) self with
  | [] => Raises IndexError
  | row :: _ => Returns (SMDA_code row)
  end.

Definition get_webviz_well_log_metadata (self : t) : Dict.dict discrete_block :=
  Dict.of_list
    [(Text "DepositionalEnvironment",
      {| attributes := ["color"; "code"];
         objects :=
           Dict.of_list
             (map (fun row =>
                     (Text (DEPOSITIONAL_ENVIRONMENT row),
                      ([R row; G row; B row; 255%Z], SMDA_code row)))
                  self) |})].

End DepositionalEnvironmentSMDAStandard.

(* ------------------------------------------------------------------ *)
(** ** class DepositionalEnvironmentsWebviz *)

Module DepositionalEnvironmentsWebviz.

Record t : Type := {
  _df : list lith_row;
  dep_environments : DepositionalEnvironmentSMDAStandard.t
}.

Definition _lithostrat_codes (self : t) : Dict.dict Z :=
  Dict.of_list
    (map (fun cl => (snd cl, fst cl))
         (enumerate (unique_labels (map Lithostrat_unit (_df self))))).

Definition wells (self : t) : list string :=
  unique (map unique_wellbore_identifier (_df self)).

Definition _get_log_curves : list curve :=
  [ {| curve_name := "MD"; description := "continuous"; quantity := "m";
       curve_unit := "m"; valueType := "float"; dimensions := 1 |};
    {| curve_name := "DepositionalEnvironment"; description := "";
       quantity := "DISC"; curve_unit := "DISC"; valueType := "integer";
       dimensions := 1 |};
    {| curve_name := "Lithostrat_unit"; description := "";
       quantity := "DISC"; curve_unit := "DISC"; valueType := "integer";
       dimensions := 1 |} ].

(** [self._df[self._df["unique_wellbore_identifier"] == well_name]] *)
Definition rows_of (self : t) (well_name : string) : list lith_row :=
  filter (fun row => String.eqb (unique_wellbore_identifier row) well_name)
         (_df self).

Definition _get_log_header (self : t) (well_name : string) : log_header :=
  let df := rows_of self well_name in
  {| name := "BLOCKING";
     well := well_name;
     startIndex := series_min (map Depth_top df);
     endIndex := series_max (map Depth_base df);
     step := VNone |}.

(** The list appended for one row. *)
Definition data_row (self : t) (row : lith_row) : outcome (list value) :=
  dep <- match Depositional_Environment row with
         | Some dep_env =>
             code <- DepositionalEnvironmentSMDAStandard.get_smda_code_for_dep_environment
                       (dep_environments self) dep_env ;;
             Returns (VInt code)
         | None => Returns VNone
         end ;;
  lith <- Dict.subscript (_lithostrat_codes self) (Lithostrat_unit row) ;;
  Returns [VFloat (Depth_top row); dep; VInt lith].

Definition _get_log_data (self : t) (well_name : string)
  : outcome (list (list value)) :=
  for_each (data_row self) (rows_of self well_name).

Definition _get_log_metadata_discrete (self : t) : Dict.dict discrete_block :=
  let metadata :=
    Dict.of_list
      [(Text "Lithostrat_unit",
        {| attributes := ["color"; "code"];
           objects :=
             Dict.of_list
               (map (fun lc => (fst lc, ([0; 0; 0; 255]%Z, snd lc)))
                    (_lithostrat_codes self)) |})] in
  Dict.update metadata
    (DepositionalEnvironmentSMDAStandard.get_webviz_well_log_metadata
       (dep_environments self)).

Definition get_webviz_well_log (self : t) (well_name : string)
  : outcome well_log :=
  let h := _get_log_header self well_name in
  let c := _get_log_curves in
  d <- _get_log_data self well_name ;;
  Returns {| header := h; curves := c; data := d;
             metadata_discrete := _get_log_metadata_discrete self |}.

End DepositionalEnvironmentsWebviz.

(* ------------------------------------------------------------------ *)
(** ** The callback *)

Definition well_template : template :=
  {| template_name := "Template";
     scale_primary := "MD";
     tracks :=
       [ [ {| plot_name := "DepositionalEnvironment"; plot_type := "stacked";
              colorTable := None |} ];
         [ {| plot_name := "Lithostrat_unit"; plot_type := "stacked";
              colorTable := Some "Stratigraphy" |} ] ] |}.

(** [_set_well(well_names)], with the module-level [lith] as an argument:
    the four outputs [welllogs], [templates], [spacers], [wellDistances]. *)
Definition _set_well (lith : DepositionalEnvironmentsWebviz.t)
  (well_names : list string)
  : outcome (list well_log * list template * list Z * list Z) :=
  logs <- for_each (DepositionalEnvironmentsWebviz.get_webviz_well_log lith)
                   well_names ;;
  let templates := map (fun _ => well_template) well_names in
  let spacers := map (fun _ => 200%Z) well_names in
  Returns (logs, templates, spacers, spacers).

(* ------------------------------------------------------------------ *)
(** ** Small tables to run the code on *)

Module Examples.
Import DepositionalEnvironmentsWebviz.
Local Open Scope Z_scope.

Definition std (label : string) (code : Z) : std_row :=
  {| DEPOSITIONAL_ENVIRONMENT := label; SMDA_code := code;
     R := 0; G := 0; B := 255 |}.

Definition interval (w : string) (top base : Z) (unit_label : label)
  (dep_env : option string) : lith_row :=
  {| unique_wellbore_identifier := w;
     Depth_top := inject_Z top; Depth_base := inject_Z base;
     Lithostrat_unit := unit_label; Depositional_Environment := dep_env |}.

(** The standard of the scenario: one entry, Marine, code 7. *)
Definition marine : DepositionalEnvironmentSMDAStandard.t := [std "Marine" 7].

(** The same with the longer text on the side of the standard. *)
Definition marine_deposits : DepositionalEnvironmentSMDAStandard.t :=
  [std "Marine deposits" 7].

(** Two entries under one label. *)
Definition marine_twice : DepositionalEnvironmentSMDAStandard.t :=
  [std "Marine" 7; std "Marine" 8].

Definition a1_rows : list lith_row :=
  [ interval "A-1" 10 20 "Sand" None;
    interval "A-1" 20 30 "Shale" None;
    interval "A-1" 30 45 "Sand" None ].

(** Well A-1 alone. *)
Definition a1_only : t := {| _df := a1_rows; dep_environments := marine |}.

(** Well A-1 after a row of well B-2. *)
Definition b2_then_a1 : t :=
  {| _df := interval "B-2" 1 2 "Chalk" None :: a1_rows;
     dep_environments := marine |}.

(** A well whose environment the standard does not list. *)
Definition a1_lagoon : t :=
  {| _df := [interval "A-1" 10 20 "Sand" (Some "Lagoon")];
     dep_environments := marine |}.

(** A well whose environment is listed, twice. *)
Definition a1_marine_twice : t :=
  {| _df := [interval "A-1" 10 20 "Sand" (Some "Marine")];
     dep_environments := marine_twice |}.

End Examples.

(* ------------------------------------------------------------------ *)
(** ** The script with well picks

    [example_well_log_with_wellpicks.py] has the same standard, a document
    without the column of the units, the picks of a well, and a callback
    for one well. *)


(** [l[0]] *)
Definition first_item {A : Type} (l : list A) : outcome A :=
  match l with
  | [] => Raises IndexError
  | a :: _ => Returns a
  end.

(** A cell of a row of picks: a depth or the name of a horizon. *)
Inductive pick_cell : Type :=
| PDepth (q : Q)
| PHorizon (l : label).

(** A curve of the picks; [quantity] and [unit] are keys of the first
    curve only. *)
Record pick_curve : Type := {
  pc_name : string;
  pc_quantity : option string;
  pc_unit : option string;
  pc_valueType : string;
  pc_dimensions : Z
}.

Record pick_header : Type := {
  pick_name : string;
  pick_well : string
}.

Record well_picks : Type := {
  picks_header : pick_header;
  picks_curves : list pick_curve;
  picks_data : list (list pick_cell)
}.

(** A number of a colour table, written with or without a decimal point. *)
Inductive number : Type :=
| NInt (z : Z)
| NFloat (q : Q).

(** The value under [discrete]: [True], [False] or a text. *)
Inductive py_flag : Type :=
| PyBool (b : bool)
| PyStr (s : string).

Record color_table : Type := {
  ct_name : string;
  ct_discrete : py_flag;
  ct_description : option string;
  colorNaN : option (list Z);
  colorBelow : option (list Z);
  colorAbove : option (list Z);
  colors : list (list number)
}.

(** The second output of the callback. *)
Record wellpick_prop : Type := {
  wellpick : well_picks;
  wp_name : string;
  wp_color : string;
  colorTables : list color_table
}.

Module WithWellpicks.
Import DepositionalEnvironmentsWebviz.
Local Open Scope Z_scope.

Definition _get_log_curves : list curve :=
  [ {| curve_name := "MD"; description := "continuous"; quantity := "m";
       curve_unit := "m"; valueType := "float"; dimensions := 1 |};
    {| curve_name := "DepositionalEnvironment"; description := "discrete";
       quantity := "DISC"; curve_unit := "DISC"; valueType := "integer";
       dimensions := 1 |} ].

Definition _get_log_header (self : t) (well_name : string) : log_header :=
  let df := rows_of self well_name in
  {| name := "BLOCKING";
     well := well_name;
     startIndex := series_min (map Depth_top df);
     endIndex := series_max (map Depth_base df);
     step := VNone |}.

(** The list appended for one row. *)
Definition data_row (self : t) (row : lith_row) : outcome (list value) :=
  dep <- match Depositional_Environment row with
         | Some dep_env =>
             code <- DepositionalEnvironmentSMDAStandard.get_smda_code_for_dep_environment
                       (dep_environments self) dep_env ;;
             Returns (VInt code)
         | None => Returns VNone
         end ;;
  Returns [VFloat (Depth_top row); dep].

Definition _get_log_data (self : t) (well_name : string)
  : outcome (list (list value)) :=
  for_each (data_row self) (rows_of self well_name).

Definition _get_log_metadata_discrete (self : t) : Dict.dict discrete_block :=
  DepositionalEnvironmentSMDAStandard.get_webviz_well_log_metadata
    (dep_environments self).

Definition get_webviz_well_log (self : t) (well_name : string)
  : outcome well_log :=
  let h := _get_log_header self well_name in
  let c := _get_log_curves in
  d <- _get_log_data self well_name ;;
  Returns {| header := h; curves := c; data := d;
             metadata_discrete := _get_log_metadata_discrete self |}.

Definition _get_pick_header (well_name : string) : pick_header :=
  {| pick_name := well_name; pick_well := well_name |}.

Definition _get_pick_curves : list pick_curve :=
  [ {| pc_name := "MD"; pc_quantity := Some "m"; pc_unit := Some "m";
       pc_valueType := "float"; pc_dimensions := 1 |};
    {| pc_name := "HORIZON"; pc_quantity := None; pc_unit := None;
       pc_valueType := "string"; pc_dimensions := 1 |} ].

Definition _get_pick_data (self : t) (well_name : string)
  : list (list pick_cell) :=
  map (fun row => [PDepth (Depth_top row); PHorizon (Lithostrat_unit row)])
      (rows_of self well_name).

Definition get_webviz_well_picks (self : t) (well_name : string) : well_picks :=
  {| picks_header := _get_pick_header well_name;
     picks_curves := _get_pick_curves;
     picks_data := _get_pick_data self well_name |}.

(** The colour tables that the callback sends along.  A number written
    with a decimal point is the decimal fraction written. *)
Definition callback_color_tables : list color_table :=
[
  {| ct_name := "Physics";
     ct_discrete := PyBool false;
     ct_description := Some "Full options color table";
     colorNaN := Some [255; 255; 255];
     colorBelow := Some [255; 0; 0];
     colorAbove := Some [0; 0; 255];
     colors :=
       [ [NInt 0; NInt 255; NInt 0; NInt 0];
         [NFloat (1 # 4); NInt 182; NInt 182; NInt 0];
         [NFloat (1 # 2); NInt 0; NInt 255; NInt 0];
         [NFloat (3 # 4); NInt 0; NInt 182; NInt 182];
         [NInt 1; NInt 0; NInt 0; NInt 255] ] |};
  {| ct_name := "Physics reverse";
     ct_discrete := PyBool false;
     ct_description := None;
     colorNaN := None;
     colorBelow := None;
     colorAbove := None;
     colors :=
       [ [NInt 0; NInt 0; NInt 0; NInt 255];
         [NFloat (1 # 4); NInt 0; NInt 182; NInt 182];
         [NFloat (1 # 2); NInt 0; NInt 255; NInt 0];
         [NFloat (3 # 4); NInt 182; NInt 182; NInt 0];
         [NInt 1; NInt 255; NInt 0; NInt 0] ] |};
  {| ct_name := "Rainbow";
     ct_discrete := PyBool false;
     ct_description := None;
     colorNaN := None;
     colorBelow := None;
     colorAbove := None;
     colors :=
       [ [NInt 0; NInt 255; NInt 0; NInt 0];
         [NFloat (1 # 5); NInt 182; NInt 182; NInt 0];
         [NFloat (2 # 5); NInt 0; NInt 255; NInt 0];
         [NFloat (3 # 5); NInt 0; NInt 182; NInt 182];
         [NFloat (4 # 5); NInt 0; NInt 0; NInt 255];
         [NInt 1; NInt 182; NInt 0; NInt 182] ] |};
  {| ct_name := "Rainbow reverse";
     ct_discrete := PyBool false;
     ct_description := None;
     colorNaN := None;
     colorBelow := None;
     colorAbove := None;
     colors :=
       [ [NInt 0; NInt 182; NInt 0; NInt 182];
         [NFloat (1 # 5); NInt 0; NInt 0; NInt 255];
         [NFloat (2 # 5); NInt 0; NInt 182; NInt 182];
         [NFloat (3 # 5); NInt 0; NInt 255; NInt 0];
         [NFloat (4 # 5); NInt 182; NInt 182; NInt 0];
         [NInt 1; NInt 255; NInt 0; NInt 0] ] |};
  {| ct_name := "Colors_set_1";
     ct_discrete := PyStr "true";
     ct_description := None;
     colorNaN := None;
     colorBelow := None;
     colorAbove := None;
     colors :=
       [ [NInt 0; NInt 255; NInt 13; NInt 186];
         [NInt 1; NInt 255; NInt 64; NInt 53];
         [NInt 2; NInt 247; NInt 255; NInt 164];
         [NInt 3; NInt 112; NInt 255; NInt 97];
         [NInt 4; NInt 9; NInt 254; NInt 133];
         [NInt 5; NInt 254; NInt 4; NInt 135];
         [NInt 6; NInt 255; NInt 5; NInt 94];
         [NInt 7; NInt 32; NInt 50; NInt 255];
         [NInt 8; NInt 109; NInt 255; NInt 32];
         [NInt 9; NInt 254; NInt 146; NInt 92];
         [NInt 10; NInt 185; NInt 116; NInt 255];
         [NInt 11; NInt 255; NInt 144; NInt 1];
         [NInt 12; NInt 157; NInt 32; NInt 255];
         [NInt 13; NInt 255; NInt 26; NInt 202];
         [NInt 14; NInt 73; NInt 255; NInt 35] ] |};
  {| ct_name := "Stratigraphy";
     ct_discrete := PyBool true;
     ct_description := None;
     colorNaN := Some [255; 64; 64];
     colorBelow := None;
     colorAbove := None;
     colors :=
       [ [NInt 0; NInt 255; NInt 193; NInt 0];
         [NInt 1; NInt 255; NInt 120; NInt 61];
         [NInt 2; NInt 255; NInt 155; NInt 76];
         [NInt 3; NInt 255; NInt 223; NInt 161];
         [NInt 4; NInt 226; NInt 44; NInt 118];
         [NInt 5; NInt 255; NInt 243; NInt 53];
         [NInt 6; NInt 255; NInt 212; NInt 179];
         [NInt 7; NInt 255; NInt 155; NInt 23];
         [NInt 8; NInt 255; NInt 246; NInt 117];
         [NInt 9; NInt 255; NInt 241; NInt 0];
         [NInt 10; NInt 255; NInt 211; NInt 178];
         [NInt 11; NInt 255; NInt 173; NInt 128];
         [NInt 12; NInt 248; NInt 152; NInt 0];
         [NInt 13; NInt 154; NInt 89; NInt 24];
         [NInt 14; NInt 0; NInt 138; NInt 185];
         [NInt 15; NInt 82; NInt 161; NInt 40];
         [NInt 16; NInt 219; NInt 228; NInt 163];
         [NInt 17; NInt 0; NInt 119; NInt 64];
         [NInt 18; NInt 0; NInt 110; NInt 172];
         [NInt 19; NInt 116; NInt 190; NInt 230];
         [NInt 20; NInt 0; NInt 155; NInt 212];
         [NInt 21; NInt 0; NInt 117; NInt 190];
         [NInt 22; NInt 143; NInt 40; NInt 112];
         [NInt 23; NInt 220; NInt 153; NInt 190];
         [NInt 24; NInt 226; NInt 44; NInt 118];
         [NInt 25; NInt 126; NInt 40; NInt 111];
         [NInt 26; NInt 73; NInt 69; NInt 43];
         [NInt 27; NInt 203; NInt 63; NInt 42];
         [NInt 28; NInt 255; NInt 198; NInt 190];
         [NInt 29; NInt 135; NInt 49; NInt 45];
         [NInt 30; NInt 150; NInt 136; NInt 120];
         [NInt 31; NInt 198; NInt 182; NInt 175];
         [NInt 32; NInt 166; NInt 154; NInt 145];
         [NInt 33; NInt 191; NInt 88; NInt 22];
         [NInt 34; NInt 255; NInt 212; NInt 179];
         [NInt 35; NInt 251; NInt 139; NInt 105];
         [NInt 36; NInt 154; NInt 89; NInt 24];
         [NInt 37; NInt 186; NInt 222; NInt 200];
         [NInt 38; NInt 0; NInt 124; NInt 140];
         [NInt 39; NInt 87; NInt 84; NInt 83] ] |};
  {| ct_name := "Colors_set_3";
     ct_discrete := PyStr "true";
     ct_description := None;
     colorNaN := None;
     colorBelow := None;
     colorAbove := None;
     colors :=
       [ [NInt 0; NInt 120; NInt 181; NInt 255];
         [NInt 1; NInt 255; NInt 29; NInt 102];
         [NInt 2; NInt 247; NInt 255; NInt 173];
         [NInt 3; NInt 239; NInt 157; NInt 255];
         [NInt 4; NInt 186; NInt 255; NInt 236];
         [NInt 5; NInt 46; NInt 255; NInt 121];
         [NInt 6; NInt 212; NInt 255; NInt 144];
         [NInt 7; NInt 165; NInt 255; NInt 143];
         [NInt 8; NInt 122; NInt 255; NInt 89];
         [NInt 9; NInt 255; NInt 212; NInt 213] ] |};
  {| ct_name := "Porosity";
     ct_discrete := PyBool false;
     ct_description := None;
     colorNaN := None;
     colorBelow := None;
     colorAbove := None;
     colors :=
       [ [NInt 0; NInt 255; NInt 246; NInt 117];
         [NFloat (11 # 100); NInt 255; NInt 243; NInt 53];
         [NFloat (9 # 50); NInt 255; NInt 241; NInt 0];
         [NFloat (1 # 4); NInt 155; NInt 193; NInt 0];
         [NFloat (8 # 25); NInt 255; NInt 155; NInt 23];
         [NFloat (39 # 100); NInt 255; NInt 162; NInt 61];
         [NFloat (23 # 50); NInt 255; NInt 126; NInt 45];
         [NFloat (53 # 100); NInt 227; NInt 112; NInt 24];
         [NFloat (3 # 5); NInt 246; NInt 96; NInt 31];
         [NFloat (67 # 100); NInt 229; NInt 39; NInt 48];
         [NFloat (37 # 50); NInt 252; NInt 177; NInt 170];
         [NFloat (81 # 100); NInt 236; NInt 103; NInt 146];
         [NFloat (22 # 25); NInt 226; NInt 44; NInt 118];
         [NInt 1; NInt 126; NInt 40; NInt 111] ] |} ].

(** [_set_well(well_names)] of this script, with [lith] as an argument:
    the outputs [welllog] and [wellpick]. *)
Definition _set_well (lith : t) (well_names : list string)
  : outcome (well_log * wellpick_prop) :=
  selected <- first_item well_names ;;
  log <- get_webviz_well_log lith selected ;;
  first_well <- first_item (wells lith) ;;
  Returns (log,
           {| wellpick := get_webviz_well_picks lith first_well;
              wp_name := "HORIZON";
              wp_color := "Stratigraphy";
              colorTables := callback_color_tables |}).

End WithWellpicks.

(** More tables to run the code on. *)
Module MoreExamples.
Import DepositionalEnvironmentsWebviz Examples.
Local Open Scope Z_scope.

(** A standard of three entries; the text marine occurs in two labels. *)
Definition three_entries : DepositionalEnvironmentSMDAStandard.t :=
  [std "Fluvial" 3; std "Shallow marine" 5; std "Marine" 7].

(** Two wells, B-2 first, with environments that the standard lists. *)
Definition two_wells : t :=
  {| _df := [ interval "B-2" 1 2 "Chalk" (Some "fluvial");
              interval "A-1" 10 20 "Sand" (Some "Marine");
              interval "A-1" 20 30 "Shale" None;
              interval "A-1" 30 45 "Sand" None ];
     dep_environments := three_entries |}.

(** A table without rows. *)
Definition no_rows : t := {| _df := []; dep_environments := marine |}.




End MoreExamples.

(* ------------------------------------------------------------------ *)
(** ** The matcher computes the language of the pattern *)

Module ReFacts.
Import Text Re.

Example compile_group :
  compile "a(b|c)*d" =
  Returns (Cat (Lit "a")
               (Cat (Star (Alt (Cat (Lit "b") Eps) (Cat (Lit "c") Eps)))
                    (Cat (Lit "d") Eps))).
Proof. reflexivity. Qed.

Example compile_escaped_parenthesis :
  compile "\(x" = Returns (Cat (Lit "(") (Cat (Lit "x") Eps)).
Proof. reflexivity. Qed.

Example compile_errors :
  compile "a**" = Raises ReError /\ compile "a|*" = Raises ReError /\
  compile "())" = Raises ReError /\ compile "(a" = Raises ReError /\
  compile "a\" = Raises ReError.
Proof. repeat split. Qed.

Example compile_outside :
  compile "[ab]" = Beyond /\ compile "a{2}" = Beyond /\ compile "^a" = Beyond /\
  compile "a*?" = Beyond /\ compile "(?i)a" = Beyond /\ compile "\d" = Beyond.
Proof. repeat split. Qed.

Example search_ignores_case :
  search true (lits "fluvial") "Fluvial plain" = true /\
  search false (lits "fluvial") "Fluvial plain" = false.
Proof. split; reflexivity. Qed.

Lemma append_empty (u v : string) : (u ++ v)%string = "" -> u = "" /\ v = "".
Proof. destruct u; simpl; intros H; [auto | discriminate]. Qed.

Lemma append_cons (u v s : string) (x : ascii) :
  (u ++ v)%string = String x s ->
  (u = "" /\ v = String x s) \/ (exists u', u = String x u' /\ s = (u' ++ v)%string).
Proof.
  destruct u as [|y u]; simpl; intros H.
  - left; auto.
  - right. injection H as -> <-. eauto.
Qed.

Lemma append_assoc (u v w : string) : ((u ++ v) ++ w = u ++ (v ++ w))%string.
Proof. induction u; simpl; congruence. Qed.

Lemma append_empty_r (u : string) : (u ++ "")%string = u.
Proof. induction u; simpl; congruence. Qed.

Section Matching.
Variable ic : bool.

Lemma nullable_lang (r : regex) : nullable r = true <-> lang ic r "".
Proof.
  split.
  - induction r; simpl; intros H; try discriminate.
    + constructor.
    + apply andb_true_iff in H as [H1 H2].
      change "" with ("" ++ "")%string. constructor; auto.
    + apply orb_true_iff in H as [H|H];
        [apply lang_alt_l | apply lang_alt_r]; auto.
    + constructor.
  - intros H. remember "" as w eqn:E.
    induction H; simpl; try discriminate; auto.
    + apply append_empty in E as [-> ->]. rewrite IHlang1, IHlang2; auto.
    + rewrite IHlang; auto.
    + rewrite IHlang; auto using orb_true_r.
Qed.

Lemma lang_deriv (x : ascii) (r : regex) (s : string) :
  lang ic r (String x s) -> lang ic (deriv ic x r) s.
Proof.
  intros H. remember (String x s) as w eqn:E. revert s E.
  induction H; intros s0 E; simpl; try discriminate.
  - injection E as -> <-. rewrite H. constructor.
  - injection E as -> <-.
    destruct (Ascii.eqb x newline) eqn:Ex.
    + apply Ascii.eqb_eq in Ex. contradiction.
    + constructor.
  - apply append_cons in E as [[-> ->] | [u' [-> ->]]].
    + apply nullable_lang in H as ->. apply lang_alt_r; auto.
    + destruct (nullable r).
      * apply lang_alt_l. constructor; auto.
      * constructor; auto.
  - apply lang_alt_l; auto.
  - apply lang_alt_r; auto.
  - apply append_cons in E as [[-> ->] | [u' [-> ->]]].
    + apply (IHlang2 s0 eq_refl).
    + constructor; auto.
Qed.

Lemma deriv_lang (x : ascii) (r : regex) (s : string) :
  lang ic (deriv ic x r) s -> lang ic r (String x s).
Proof.
  revert s. induction r; simpl; intros s H.
  - inversion H.
  - inversion H.
  - destruct (chr_eq ic c x) eqn:E; inversion H; subst. constructor; auto.
  - destruct (Ascii.eqb x newline) eqn:E; inversion H; subst.
    constructor. apply Ascii.eqb_neq; auto.
  - assert (Hcat : forall t, lang ic (Cat (deriv ic x r1) r2) t ->
                             lang ic (Cat r1 r2) (String x t)).
    { intros t Ht. inversion Ht; subst.
      change (String x (u ++ v)) with (String x u ++ v)%string.
      constructor; auto. }
    destruct (nullable r1) eqn:N; [|auto].
    inversion H; subst; [auto|].
    change (String x s) with ("" ++ String x s)%string.
    constructor; [apply nullable_lang|]; auto.
  - inversion H; subst; [apply lang_alt_l | apply lang_alt_r]; auto.
  - inversion H; subst.
    change (String x (u ++ v)) with (String x u ++ v)%string.
    constructor; auto.
Qed.

(** Some prefix of the text is in the language. *)
Lemma match_prefix_spec (r : regex) (s : string) :
  match_prefix ic r s = true <-> exists u v, s = (u ++ v)%string /\ lang ic r u.
Proof.
  revert r. induction s as [|x s IH]; intros r; simpl.
  - rewrite orb_false_r, nullable_lang. split.
    + intros H. exists "", "". auto.
    + intros (u & v & E & H). symmetry in E.
      apply append_empty in E as [-> _]. auto.
  - rewrite orb_true_iff, IH, nullable_lang. split.
    + intros [H | (u & v & -> & H)].
      * exists "", (String x s). auto.
      * exists (String x u), v. split; [reflexivity|]. apply deriv_lang; auto.
    + intros (u & v & E & H). symmetry in E.
      apply append_cons in E as [[-> _] | [u' [-> ->]]]; [left; auto|].
      right. exists u', v. split; [reflexivity|]. apply lang_deriv; auto.
Qed.

(** Some stretch of the text is in the language. *)
Lemma search_spec (r : regex) (s : string) :
  search ic r s = true <->
  exists p u v, s = (p ++ u ++ v)%string /\ lang ic r u.
Proof.
  induction s as [|x s IH]; cbn [search].
  - rewrite orb_false_r, match_prefix_spec. split.
    + intros (u & v & E & H). exists "", u, v. auto.
    + intros (p & u & v & E & H). symmetry in E.
      apply append_empty in E as [-> E]. simpl in E. eauto.
  - rewrite orb_true_iff, IH, match_prefix_spec. split.
    + intros [(u & v & E & H) | (p & u & v & -> & H)].
      * exists "", u, v. auto.
      * exists (String x p), u, v. auto.
    + intros (p & u & v & E & H). destruct p as [|y p]; simpl in E.
      * left. eauto.
      * injection E as <- ->. right. eauto.
Qed.
End Matching.

(** *** Text without special characters *)

Lemma ci_eq_iff (a b : ascii) : ci_eq a b = true <-> lower a = lower b.
Proof. apply Ascii.eqb_eq. Qed.

Lemma ci_prefix_spec (q s : string) :
  ci_prefix q s = true <->
  exists u v, s = (u ++ v)%string /\ lower_str u = lower_str q.
Proof.
  revert s. induction q as [|a q IH]; intros s; simpl.
  - split; [intros _; exists "", s; auto | auto].
  - destruct s as [|b s].
    + split; [discriminate|]. intros (u & v & E & H). symmetry in E.
      apply append_empty in E as [-> _]. discriminate.
    + rewrite andb_true_iff, ci_eq_iff, IH. split.
      * intros (Hab & u & v & -> & H). exists (String b u), v.
        simpl. split; [reflexivity | congruence].
      * intros (u & v & E & H). destruct u as [|c u]; [discriminate|].
        simpl in E, H. injection E as <- ->. injection H as H1 H2.
        split; [congruence | eauto].
Qed.

(** [ci_substring] says what its name says: a stretch of the text equals
    the sought text once both are lowered. *)
Lemma ci_substring_spec (q s : string) :
  ci_substring q s = true <->
  exists p u v, s = (p ++ u ++ v)%string /\ lower_str u = lower_str q.
Proof.
  induction s as [|x s IH]; cbn [ci_substring].
  - rewrite orb_false_r, ci_prefix_spec. split.
    + intros (u & v & E & H). exists "", u, v. auto.
    + intros (p & u & v & E & H). symmetry in E.
      apply append_empty in E as [-> E]. simpl in E. eauto.
  - rewrite orb_true_iff, IH, ci_prefix_spec. split.
    + intros [(u & v & E & H) | (p & u & v & -> & H)].
      * exists "", u, v. auto.
      * exists (String x p), u, v. auto.
    + intros (p & u & v & E & H). destruct p as [|y p]; simpl in E.
      * left. eauto.
      * injection E as <- ->. right. eauto.
Qed.

Lemma lang_lits (q u : string) :
  lang true (lits q) u <-> lower_str u = lower_str q.
Proof.
  unfold lits. revert u. induction q as [|a q IH]; intros u; simpl.
  - split.
    + intros H. inversion H. reflexivity.
    + destruct u; [constructor | discriminate].
  - split.
    + intros H. inversion H as [| | |r s0 u1 u2 H1 H2| | | |]; subst.
      inversion H1; subst. simpl. apply IH in H2. apply ci_eq_iff in H3.
      congruence.
    + destruct u as [|b u]; [discriminate|]. simpl. intros H.
      injection H as H1 H2.
      change (String b u) with (String b "" ++ u)%string.
      constructor; [constructor; apply ci_eq_iff; auto | apply IH; auto].
Qed.

Lemma bool_ext (a b : bool) : (a = true <-> b = true) -> a = b.
Proof. destruct a, b; intuition congruence. Qed.

(** Searching for a text without special characters is looking for it as
    a substring, case ignored. *)
Lemma search_lits (q s : string) : search true (lits q) s = ci_substring q s.
Proof.
  apply bool_ext. rewrite search_spec, ci_substring_spec.
  split; intros (p & u & v & E & H); exists p, u, v;
    (split; [exact E | apply lang_lits; exact H]).
Qed.

Lemma special_false (c : ascii) :
  special c = false ->
  is_in c "|" = false /\ is_in c ")" = false /\ is_in c "\" = false /\
  is_in c "[{^$" = false /\ is_in c "*+?" = false /\ is_in c "." = false /\
  is_in c "(" = false.
Proof.
  unfold special, is_in. simpl. intros H.
  repeat (apply orb_false_iff in H; destruct H as [? H]).
  repeat split; repeat (apply orb_false_iff; split); assumption.
Qed.

Lemma parse_plain (q rest : string) (cur : frame) (stack : list frame) :
  plain q = true ->
  parse_from cur stack (q ++ rest) = parse_from (push_lits q cur) stack rest.
Proof.
  revert cur. induction q as [|c q IH]; intros cur H; simpl in *.
  - reflexivity.
  - apply andb_true_iff in H as [Hc Hq]. apply negb_true_iff in Hc.
    apply special_false in Hc as (H1 & H2 & H3 & H4 & H5 & H6 & H7).
    rewrite H1, H2, H3, H4, H5, H6, H7. apply IH, Hq.
Qed.

Lemma push_lits_alts (q : string) (cur : frame) :
  alts (push_lits q cur) = alts cur.
Proof. revert cur. induction q; intros cur; simpl; [|rewrite IHq]; reflexivity. Qed.

Lemma push_lits_seq (q : string) (cur : frame) (acc : regex) :
  fold_left (fun a it => Cat (it_re it) a) (items (push_lits q cur)) acc =
  fold_left (fun a it => Cat (it_re it) a) (items cur) (lits_onto q acc).
Proof.
  revert cur. induction q as [|c q IH]; intros cur; simpl; [|rewrite IH];
    reflexivity.
Qed.

(** A text without special characters compiles, to itself. *)
Lemma compile_plain (q : string) :
  plain q = true -> compile q = Returns (lits q).
Proof.
  intros H. unfold compile.
  rewrite <- (append_empty_r q) at 1. rewrite parse_plain by exact H. simpl.
  unfold close, seq_of. rewrite push_lits_alts, push_lits_seq. reflexivity.
Qed.

End ReFacts.

(* ------------------------------------------------------------------ *)
(** ** Loops that may raise *)

Section ForEach.
Context {A B : Type} (f : A -> outcome B).

Lemma for_each_Returns (l : list A) (bs : list B) :
  for_each f l = Returns bs <-> Forall2 (fun a b => f a = Returns b) l bs.
Proof.
  revert bs. induction l as [|a l IH]; intros bs; simpl.
  - split.
    + intros H. injection H as <-. constructor.
    + intros H. inversion H. reflexivity.
  - destruct (f a) as [b| |] eqn:Fa; simpl.
    + destruct (for_each f l) as [bs'| |] eqn:Fl; simpl.
      * split.
        -- intros H. injection H as <-. constructor; [exact Fa | apply IH; reflexivity].
        -- intros H. inversion H as [|a0 b0 l0 bs0 H1 H2]; subst.
           apply IH in H2. congruence.
      * split; [discriminate|]. intros H.
        inversion H as [|a0 b0 l0 bs0 H1 H2]; subst. apply IH in H2. discriminate.
      * split; [discriminate|]. intros H.
        inversion H as [|a0 b0 l0 bs0 H1 H2]; subst. apply IH in H2. discriminate.
    + split; [discriminate|]. intros H. inversion H; congruence.
    + split; [discriminate|]. intros H. inversion H; congruence.
Qed.

Lemma for_each_total (l : list A) :
  (forall a, In a l -> exists b, f a = Returns b) ->
  exists bs, for_each f l = Returns bs.
Proof.
  induction l as [|a l IH]; intros H; simpl.
  - eauto.
  - destruct (H a (or_introl eq_refl)) as [b ->].
    destruct IH as [bs ->]; [intros; apply H; right; assumption|].
    simpl. eauto.
Qed.

(** The loop ends at the first element whose body raises. *)
Lemma for_each_first_failure (pre post : list A) (a : A) (e : exn) :
  (forall x, In x pre -> exists b, f x = Returns b) ->
  f a = Raises e ->
  for_each f (pre ++ a :: post) = Raises e.
Proof.
  induction pre as [|x pre IH]; intros H Fa; simpl.
  - rewrite Fa. reflexivity.
  - destruct (H x (or_introl eq_refl)) as [b ->]. simpl.
    rewrite IH; [reflexivity | intros; apply H; right; assumption | exact Fa].
Qed.


Lemma for_each_length (l : list A) (bs : list B) :
  for_each f l = Returns bs -> length bs = length l.
Proof.
  intros H. apply for_each_Returns in H.
  induction H; simpl; congruence.
Qed.
End ForEach.

Lemma for_each_ext {A B : Type} (f g : A -> outcome B) (l : list A) :
  (forall a, In a l -> f a = g a) -> for_each f l = for_each g l.
Proof.
  induction l as [|a l IH]; intros H; simpl; [reflexivity|].
  rewrite (H a (or_introl eq_refl)), IH; [reflexivity|].
  intros; apply H; right; assumption.
Qed.

(* ------------------------------------------------------------------ *)
(** ** Columns *)

Lemma In_unique (x : string) (l : list string) : In x (unique l) <-> In x l.
Proof.
  induction l as [|y l IH]; simpl; [tauto|].
  rewrite filter_In, IH, negb_true_iff, String.eqb_neq.
  destruct (string_dec y x); intuition congruence.
Qed.

Lemma NoDup_unique (l : list string) : NoDup (unique l).
Proof.
  induction l as [|y l IH]; simpl; constructor.
  - rewrite filter_In, String.eqb_refl. intros [_ H]. discriminate.
  - apply NoDup_filter, IH.
Qed.

Lemma enumerate_from_snd {A : Type} (start : Z) (l : list A) :
  map snd (enumerate_from start l) = l.
Proof. revert start. induction l; intros start; simpl; [|rewrite IHl]; reflexivity. Qed.

Module ColumnFacts.

Lemma filter_filter {A : Type} (p q : A -> bool) (l : list A) :
  filter p (filter q l) = filter (fun x => q x && p x) l.
Proof.
  induction l as [|x l IH]; simpl; [reflexivity|].
  destruct (q x); simpl; [destruct (p x)|]; rewrite IH; reflexivity.
Qed.

Lemma filter_all {A : Type} (p : A -> bool) (l : list A) :
  (forall x, In x l -> p x = true) -> filter p l = l.
Proof.
  induction l as [|x l IH]; intros H; simpl; [reflexivity|].
  rewrite (H x (or_introl eq_refl)), IH; [reflexivity|].
  intros; apply H; right; assumption.
Qed.

Lemma unique_filter (p : string -> bool) (l : list string) :
  unique (filter p l) = filter p (unique l).
Proof.
  induction l as [|x l IH]; [reflexivity|].
  cbn [filter unique]. destruct (p x) eqn:Px.
  - cbn [unique]. rewrite IH, !filter_filter. apply f_equal.
    apply filter_ext. intros y. apply andb_comm.
  - rewrite IH, filter_filter. apply filter_ext. intros y.
    destruct (String.eqb y x) eqn:E; [|reflexivity].
    apply String.eqb_eq in E as ->. rewrite Px. reflexivity.
Qed.

Lemma unique_NoDup (l : list string) : NoDup l -> unique l = l.
Proof.
  induction 1 as [|x l Hx _ IH]; simpl; [reflexivity|].
  rewrite IH. apply f_equal, filter_all.
  intros y Hy. apply negb_true_iff, String.eqb_neq. congruence.
Qed.

(** *** Columns with missing cells *)

Lemma label_eqb_eq (a b : label) : label_eqb a b = true <-> a = b.
Proof.
  destruct a as [x|], b as [y|]; simpl; try (split; congruence).
  rewrite String.eqb_eq. split; congruence.
Qed.

Lemma label_eqb_refl (a : label) : label_eqb a a = true.
Proof. apply label_eqb_eq. reflexivity. Qed.

Lemma label_dec (a b : label) : {a = b} + {a <> b}.
Proof.
  destruct (label_eqb a b) eqn:E; [left | right].
  - apply label_eqb_eq, E.
  - intros H. apply label_eqb_eq in H. congruence.
Qed.

Lemma In_unique_labels (x : label) (l : list label) :
  In x (unique_labels l) <-> In x l.
Proof.
  induction l as [|y l IH]; simpl; [tauto|].
  rewrite filter_In, IH, negb_true_iff.
  destruct (label_dec y x) as [E|E]; [tauto|].
  split; [tauto|]. intros [H|H]; [contradiction|].
  right. split; [exact H|].
  destruct (label_eqb x y) eqn:F; [|reflexivity].
  apply label_eqb_eq in F. congruence.
Qed.

Lemma NoDup_unique_labels (l : list label) : NoDup (unique_labels l).
Proof.
  induction l as [|y l IH]; simpl; constructor.
  - rewrite filter_In, label_eqb_refl. intros [_ H]. discriminate.
  - apply NoDup_filter, IH.
Qed.

Lemma unique_labels_filter (p : label -> bool) (l : list label) :
  unique_labels (filter p l) = filter p (unique_labels l).
Proof.
  induction l as [|x l IH]; [reflexivity|].
  cbn [filter unique_labels]. destruct (p x) eqn:Px.
  - cbn [unique_labels]. rewrite IH, !filter_filter. apply f_equal.
    apply filter_ext. intros y. apply andb_comm.
  - rewrite IH, filter_filter. apply filter_ext. intros y.
    destruct (label_eqb y x) eqn:E; [|reflexivity].
    apply label_eqb_eq in E as ->. rewrite Px. reflexivity.
Qed.

(** The values first seen in [l], then those first seen in [m]. *)
Lemma unique_labels_app (l m : list label) :
  unique_labels (l ++ m) =
  (unique_labels l ++
   filter (fun x => negb (existsb (label_eqb x) l)) (unique_labels m))%list.
Proof.
  induction l as [|x l IH]; simpl.
  - rewrite filter_all by reflexivity. reflexivity.
  - apply f_equal. rewrite IH, filter_app. apply f_equal.
    rewrite filter_filter. apply filter_ext. intros y.
    rewrite negb_orb. apply andb_comm.
Qed.


Lemma enumerate_from_app {A : Type} (start : Z) (l m : list A) :
  enumerate_from start (l ++ m) =
  (enumerate_from start l ++ enumerate_from (start + Z.of_nat (length l)) m)%list.
Proof.
  revert start. induction l as [|x l IH]; intros start.
  - simpl. rewrite Z.add_0_r. reflexivity.
  - cbn [app enumerate_from length]. rewrite IH. do 3 f_equal. lia.
Qed.

End ColumnFacts.

(* ------------------------------------------------------------------ *)
(** ** Dictionaries: what is stored is what is found *)

Module DictFacts.
Import Dict ColumnFacts.
#[local] Arguments key_eqb : simpl never.

Lemma key_eqb_true (a b : label) :
  key_eqb a b = true <-> exists s, a = Text s /\ b = Text s.
Proof.
  destruct a as [x|], b as [y|]; unfold key_eqb.
  - rewrite String.eqb_eq. split.
    + intros ->. eauto.
    + intros (s & E1 & E2). congruence.
  - split; [discriminate|]. intros (s & _ & E). discriminate.
  - split; [discriminate|]. intros (s & E & _). discriminate.
  - split; [discriminate|]. intros (s & E & _). discriminate.
Qed.

Lemma key_eqb_sym (a b : label) : key_eqb a b = key_eqb b a.
Proof. destruct a, b; unfold key_eqb; auto using String.eqb_sym. Qed.

Lemma key_eqb_refl (s : string) : key_eqb (Text s) (Text s) = true.
Proof. apply String.eqb_refl. Qed.


Section Facts.
Context {V : Type}.
Implicit Types (d : dict V) (k : label) (s : string) (v : V).

Lemma get_Missing d : get Missing d = None.
Proof. induction d as [|[k0 v0] d IH]; simpl; auto. Qed.

Lemma get_set k k' v d :
  get k (set k' v d) = if key_eqb k k' then Some v else get k d.
Proof.
  induction d as [|[k0 v0] d IH]; simpl.
  - reflexivity.
  - destruct (key_eqb k' k0) eqn:E'; simpl.
    + apply key_eqb_true in E' as (s & -> & ->).
      destruct (key_eqb k (Text s)); reflexivity.
    + destruct (key_eqb k k0) eqn:E0; [|exact IH].
      apply key_eqb_true in E0 as (s & -> & ->).
      rewrite key_eqb_sym, E'. reflexivity.
Qed.

Lemma keys_set k k' v d : In k (keys (set k' v d)) <-> k = k' \/ In k (keys d).
Proof.
  unfold keys. induction d as [|[k0 v0] d IH]; simpl.
  - intuition congruence.
  - destruct (key_eqb k' k0) eqn:E'; simpl.
    + apply key_eqb_true in E' as (s & -> & ->). intuition congruence.
    + rewrite IH. intuition.
Qed.

Lemma get_In k v d : get k d = Some v -> In (k, v) d.
Proof.
  induction d as [|[k0 v0] d IH]; simpl; [discriminate|].
  destruct (key_eqb k k0) eqn:E.
  - apply key_eqb_true in E as (s & -> & ->). intros H. injection H as ->.
    left; reflexivity.
  - intros H. right. apply IH, H.
Qed.

(** A text that is a key, once, is found with its value. *)
Lemma In_get s v d : NoDup (keys d) -> In (Text s, v) d -> get (Text s) d = Some v.
Proof.
  unfold keys. induction d as [|[k0 v0] d IH]; intros N H; [contradiction|].
  cbn [get map fst] in *. inversion N as [|x l Hx Hl]; subst.
  destruct H as [H|H].
  - injection H as -> ->. rewrite key_eqb_refl. reflexivity.
  - destruct (key_eqb (Text s) k0) eqn:E; [|auto].
    apply key_eqb_true in E as (s' & E1 & ->). assert (s' = s) by congruence; subst s'; clear E1.
    exfalso. apply Hx. apply (in_map fst) in H. exact H.
Qed.


Lemma get_app_l k v d d' : get k d = Some v -> get k (d ++ d')%list = Some v.
Proof.
  induction d as [|[k0 v0] d IH]; simpl; [discriminate|].
  destruct (key_eqb k k0); auto.
Qed.

Lemma get_update_other k d (l : list (label * V)) :
  ~ In k (keys l) -> get k (update d l) = get k d.
Proof.
  unfold update, keys. revert d.
  induction l as [|[k0 v0] l IH]; intros d H; simpl in *.
  - reflexivity.
  - rewrite IH by tauto. rewrite get_set.
    destruct (key_eqb k k0) eqn:E; [|reflexivity].
    apply key_eqb_true in E as (s & -> & ->). exfalso. apply H. left. reflexivity.
Qed.

(** A text that is assigned ends up with one of the values assigned
    to it. *)
Lemma get_update_assigned s d (l : list (label * V)) :
  In (Text s) (keys l) ->
  exists v, get (Text s) (update d l) = Some v /\ In (Text s, v) l.
Proof.
  revert d. induction l as [|[k0 v0] l IH]; intros d H; [contradiction|].
  destruct (in_dec label_dec (Text s) (keys l)) as [Hin|Hout].
  - destruct (IH (set k0 v0 d) Hin) as (v & Hv & Hl).
    exists v. split; [exact Hv | right; exact Hl].
  - destruct H as [H|H]; [|contradiction]. simpl in H. subst k0.
    exists v0. split; [|left; reflexivity].
    change (update d ((Text s, v0) :: l)) with (update (set (Text s) v0 d) l).
    rewrite get_update_other by exact Hout.
    rewrite get_set, key_eqb_refl. reflexivity.
Qed.

(** The last assignment to a text is the one that stays. *)
Lemma get_update_last s v d (pre post : list (label * V)) :
  ~ In (Text s) (keys post) ->
  get (Text s) (update d (pre ++ (Text s, v) :: post)) = Some v.
Proof.
  intros H. unfold update. rewrite fold_left_app. simpl.
  fold (update (set (Text s) v
                  (fold_left (fun d kv => set (fst kv) (snd kv) d) pre d)) post).
  rewrite get_update_other by exact H.
  rewrite get_set, key_eqb_refl. reflexivity.
Qed.

Lemma set_new k v d : ~ In k (keys d) -> set k v d = (d ++ [(k, v)])%list.
Proof.
  unfold keys. induction d as [|[k0 v0] d IH]; simpl; intros H; [reflexivity|].
  destruct (key_eqb k k0) eqn:E.
  - apply key_eqb_true in E as (s & -> & ->). exfalso. apply H. left. reflexivity.
  - rewrite IH by tauto. reflexivity.
Qed.

Lemma set_old s v d : In (Text s) (keys d) -> keys (set (Text s) v d) = keys d.
Proof.
  unfold keys. induction d as [|[k0 v0] d IH]; simpl; intros H; [contradiction|].
  destruct (key_eqb (Text s) k0) eqn:E; simpl; [reflexivity|].
  rewrite IH; [reflexivity|]. destruct H as [H|H]; [|exact H].
  subst k0. rewrite key_eqb_refl in E. discriminate.
Qed.

(** Assignments to keys that are new and distinct are appended. *)
Lemma update_new d (l : list (label * V)) :
  NoDup (keys l) -> (forall k, In k (keys l) -> ~ In k (keys d)) ->
  update d l = (d ++ l)%list.
Proof.
  unfold update, keys. revert d.
  induction l as [|[k v] l IH]; intros d N H; simpl in *.
  - rewrite app_nil_r. reflexivity.
  - inversion N as [|x y Hx Hl]; subst.
    rewrite set_new by (apply H; left; reflexivity).
    rewrite IH; [rewrite <- app_assoc; reflexivity | exact Hl |].
    intros k' Hk' Hin. rewrite map_app in Hin. apply in_app_or in Hin as [Hin|Hin].
    + apply (H k'); [right; exact Hk' | exact Hin].
    + simpl in Hin. destruct Hin as [<-|[]]. contradiction.
Qed.

Lemma of_list_NoDup (l : list (label * V)) : NoDup (keys l) -> of_list l = l.
Proof. intros N. unfold of_list. rewrite update_new; auto. Qed.

Lemma existsb_In (x : string) (xs : list string) :
  existsb (String.eqb x) xs = true <-> In x xs.
Proof.
  rewrite existsb_exists. split.
  - intros (y & Hy & E). apply String.eqb_eq in E. congruence.
  - intros H. exists x. split; [exact H | apply String.eqb_refl].
Qed.

(** The keys of a dictionary of texts after assignments to texts: the
    old keys, then the new ones in the order of their first
    assignment. *)
Lemma keys_update_texts d (old : list string) (l : list (string * V)) :
  keys d = map Text old ->
  keys (update d (map (fun p => (Text (fst p), snd p)) l)) =
  map Text
    (old ++ unique (filter (fun x => negb (existsb (String.eqb x) old))
                           (map fst l)))%list.
Proof.
  unfold update. revert d old.
  induction l as [|[x v] l IH]; intros d old Hd; cbn [map fold_left fst snd].
  - simpl. rewrite app_nil_r. exact Hd.
  - cbn [filter]. destruct (existsb (String.eqb x) old) eqn:E; cbn [negb].
    + apply existsb_In in E. apply IH.
      rewrite set_old; [exact Hd|]. rewrite Hd. apply in_map, E.
    + assert (Hx : ~ In (Text x) (keys d)).
      { rewrite Hd. intros H. apply in_map_iff in H as (y & Ey & Hy).
        assert (y = x) by congruence; subst y; clear Ey. apply existsb_In in Hy. congruence. }
      rewrite (IH (set (Text x) v d) (old ++ [x])%list).
      * rewrite <- app_assoc. simpl. do 2 f_equal. apply f_equal.
        rewrite !unique_filter, filter_filter.
        apply filter_ext. intros y.
        rewrite existsb_app. simpl. rewrite orb_false_r.
        rewrite negb_orb. reflexivity.
      * rewrite (set_new _ v d Hx). unfold keys in *.
        rewrite !map_app, Hd. reflexivity.
Qed.

Lemma keys_of_texts (l : list (string * V)) :
  keys (of_list (map (fun p => (Text (fst p), snd p)) l)) =
  map Text (unique (map fst l)).
Proof.
  unfold of_list. rewrite (keys_update_texts [] []) by reflexivity. simpl.
  rewrite filter_all by reflexivity. reflexivity.
Qed.
End Facts.
End DictFacts.

(* ------------------------------------------------------------------ *)
(** ** The resolver *)

Section Filter.
Context {A : Type} (p : A -> bool).

Lemma filter_none (l : list A) :
  (forall y, In y l -> p y = false) -> filter p l = [].
Proof.
  induction l as [|x l IH]; intros H; simpl; [reflexivity|].
  rewrite (H x (or_introl eq_refl)). apply IH. intros; apply H; right; assumption.
Qed.

Lemma filter_first (pre post : list A) (x : A) :
  (forall y, In y pre -> p y = false) -> p x = true ->
  filter p (pre ++ x :: post) = x :: filter p post.
Proof.
  intros Hpre Hx. rewrite filter_app, (filter_none _ Hpre). simpl.
  rewrite Hx. reflexivity.
Qed.

Lemma filter_head (l rest : list A) (x : A) :
  filter p l = x :: rest -> In x l /\ p x = true.
Proof.
  intros H. apply filter_In. rewrite H. left; reflexivity.
Qed.
End Filter.

Module ResolverFacts.
Import Text Re ReFacts DepositionalEnvironmentSMDAStandard.

(** For a text without special characters the resolver keeps the rows
    whose label contains the text, case ignored. *)
Lemma resolve_plain (self : t) (q : string) :
  plain q = true ->
  get_smda_code_for_dep_environment self q =
  match filter (fun row => ci_substring q (DEPOSITIONAL_ENVIRONMENT row)) self with
  | [] => Raises IndexError
  | row :: _ => Returns (SMDA_code row)
  end.
Proof.
  intros H. unfold get_smda_code_for_dep_environment.
  rewrite (compile_plain _ H). simpl.
  rewrite (filter_ext _ (fun row => ci_substring q (DEPOSITIONAL_ENVIRONMENT row)));
    [reflexivity|].
  intros row. apply search_lits.
Qed.

(** A code that the resolver returns is the code of a row of the
    standard. *)
Lemma resolve_in (self : t) (q : string) (code : Z) :
  get_smda_code_for_dep_environment self q = Returns code ->
  exists row, In row self /\ SMDA_code row = code.
Proof.
  unfold get_smda_code_for_dep_environment.
  destruct (compile q) as [pat| |]; simpl; try discriminate.
  destruct (filter _ self) as [|row rest] eqn:F; [discriminate|].
  intros H. injection H as <-. apply filter_head in F as [Hin _]. eauto.
Qed.
End ResolverFacts.

(* ------------------------------------------------------------------ *)
(** ** Properties of the resolver *)

Module Resolver.
Import Text Re ReFacts ResolverFacts DepositionalEnvironmentSMDAStandard.
Import Examples.

(** C1, as stated, fails: the standard lists Marine with code 7 and the
    label Marine occurs in the queried text, yet the text is not found
    in the label, no row is kept and [values[0]] raises. *)
Lemma C1_label_inside_query_fails :
  ci_substring "Marine" "marine deposits" = true /\
  get_smda_code_for_dep_environment marine "marine deposits" = Raises IndexError /\
  get_smda_code_for_dep_environment marine "marine deposits" <> Returns 7%Z.
Proof.
  split; [|split].
  - vm_compute; reflexivity.
  - vm_compute; reflexivity.
  - intros H. vm_compute in H. discriminate.
Qed.

(** C1, amended: the lookup succeeds whenever the queried text, free of
    special characters, occurs in a label of the standard, case ignored;
    the code returned is that of a row whose label contains it. *)
Theorem C1_query_inside_label (self : t) (q : string) (row : std_row) :
  plain q = true ->
  In row self ->
  ci_substring q (DEPOSITIONAL_ENVIRONMENT row) = true ->
  exists hit,
    In hit self /\
    ci_substring q (DEPOSITIONAL_ENVIRONMENT hit) = true /\
    get_smda_code_for_dep_environment self q = Returns (SMDA_code hit).
Proof.
  intros Hq Hin Hrow. rewrite (resolve_plain _ _ Hq).
  destruct (filter _ self) as [|hit rest] eqn:F.
  - exfalso.
    assert (Hf : In row (filter (fun r => ci_substring q (DEPOSITIONAL_ENVIRONMENT r)) self))
      by (apply filter_In; auto).
    rewrite F in Hf. exact Hf.
  - apply filter_head in F as [H1 H2]. exists hit. auto.
Qed.

(** The scenario with the roles exchanged: the text marine is found in
    the label Marine deposits, and the code is 7. *)
Lemma C1_query_inside_label_witness :
  exists hit,
    In hit marine_deposits /\
    ci_substring "marine" (DEPOSITIONAL_ENVIRONMENT hit) = true /\
    get_smda_code_for_dep_environment marine_deposits "marine" = Returns (SMDA_code hit).
Proof.
  apply (@C1_query_inside_label marine_deposits "marine" (std "Marine deposits" 7)).
  - reflexivity.
  - left; reflexivity.
  - reflexivity.
Defined.

(** C3, as stated, fails: no label contains a full stop, yet the
    resolver returns a code for it. *)
Lemma C3_dot_is_not_a_substring :
  ci_substring "." "Marine" = false /\
  get_smda_code_for_dep_environment marine "." = Returns 7%Z.
Proof. split; vm_compute; reflexivity. Qed.

(** C3, amended: for a text without special characters the resolver is
    a case-insensitive substring test of the text in each label; when no
    label passes it raises [IndexError], a [LookupError]; otherwise it
    returns the code of the first row that passes, in table order. *)
Theorem C3_first_match_or_lookup_error (self : t) (q : string) :
  plain q = true ->
  ((forall row, In row self ->
      ci_substring q (DEPOSITIONAL_ENVIRONMENT row) = false) ->
   get_smda_code_for_dep_environment self q = Raises IndexError /\
   is_LookupError IndexError = true)
  /\
  (forall pre hit post,
      self = (pre ++ hit :: post)%list ->
      (forall row, In row pre ->
         ci_substring q (DEPOSITIONAL_ENVIRONMENT row) = false) ->
      ci_substring q (DEPOSITIONAL_ENVIRONMENT hit) = true ->
      get_smda_code_for_dep_environment self q = Returns (SMDA_code hit)).
Proof.
  intros Hq. rewrite (resolve_plain _ _ Hq). split.
  - intros Hnone. rewrite filter_none by exact Hnone. auto.
  - intros pre hit post -> Hpre Hhit.
    rewrite filter_first by assumption. reflexivity.
Qed.

(** Two rows match the text mar; the first one gives the code.  No row
    matches the text lagoon. *)
Lemma C3_first_match_or_lookup_error_witness :
  get_smda_code_for_dep_environment marine_twice "mar" = Returns 7%Z /\
  get_smda_code_for_dep_environment marine_twice "lagoon" = Raises IndexError.
Proof.
  split.
  - apply (proj2 (@C3_first_match_or_lookup_error marine_twice "mar" eq_refl)
                 [] (std "Marine" 7) [std "Marine" 8] eq_refl).
    + intros row [].
    + reflexivity.
  - apply (proj1 (@C3_first_match_or_lookup_error marine_twice "lagoon" eq_refl)).
    intros row [<-|[<-|[]]]; reflexivity.
Defined.

(** C10: the argument is read as a pattern.  A text that ends in an open
    parenthesis does not compile, whatever the standard holds, and the
    error raised is not a [LookupError]; a full stop matches the label
    Marine, which does not contain a full stop. *)
Theorem C10_argument_is_a_pattern :
  (forall self q,
      plain q = true ->
      get_smda_code_for_dep_environment self (q ++ "(") = Raises ReError) /\
  is_LookupError ReError = false /\
  get_smda_code_for_dep_environment marine "." = Returns 7%Z /\
  ci_substring "." "Marine" = false.
Proof.
  split; [|repeat split].
  intros self q Hq. unfold get_smda_code_for_dep_environment, compile.
  rewrite parse_plain by exact Hq. reflexivity.
Qed.

(** The parenthesis alone, and after the text of a label. *)
Lemma C10_argument_is_a_pattern_witness :
  get_smda_code_for_dep_environment marine "(" = Raises ReError /\
  get_smda_code_for_dep_environment marine "Marine (" = Raises ReError.
Proof.
  split.
  - apply (proj1 C10_argument_is_a_pattern marine "" eq_refl).
  - apply (proj1 C10_argument_is_a_pattern marine "Marine " eq_refl).
Defined.

End Resolver.

(* ------------------------------------------------------------------ *)
(** ** The document builder *)

Module BuilderFacts.
Import ColumnFacts DictFacts.
Import DepositionalEnvironmentSMDAStandard DepositionalEnvironmentsWebviz.
#[local] Arguments Dict.key_eqb : simpl never.

Lemma rows_of_In (self : t) (well_name : string) (row : lith_row) :
  In row (rows_of self well_name) <->
  In row (_df self) /\ unique_wellbore_identifier row = well_name.
Proof. unfold rows_of. rewrite filter_In, String.eqb_eq. reflexivity. Qed.

Lemma codes_keys (self : t) :
  Dict.keys (map (fun cl : Z * label => (snd cl, fst cl))
                 (enumerate (unique_labels (map Lithostrat_unit (_df self))))) =
  unique_labels (map Lithostrat_unit (_df self)).
Proof.
  unfold Dict.keys, enumerate. rewrite map_map. simpl.
  apply enumerate_from_snd.
Qed.

(** No assignment of the comprehension overwrites another: the code table
    is the list of the distinct units with their positions. *)
Lemma codes_zip (self : t) :
  _lithostrat_codes self =
  map (fun cl : Z * label => (snd cl, fst cl))
      (enumerate (unique_labels (map Lithostrat_unit (_df self)))).
Proof.
  unfold _lithostrat_codes. apply of_list_NoDup.
  rewrite codes_keys. apply NoDup_unique_labels.
Qed.

Lemma codes_NoDup (self : t) : NoDup (Dict.keys (_lithostrat_codes self)).
Proof. rewrite codes_zip, codes_keys. apply NoDup_unique_labels. Qed.

(** The subscript of the code table by the unit of a row of the table
    finds a code when the unit is a text. *)
Lemma codes_defined (self : t) (row : lith_row) (unit_name : string) :
  In row (_df self) ->
  Lithostrat_unit row = Text unit_name ->
  exists code, Dict.get (Text unit_name) (_lithostrat_codes self) = Some code.
Proof.
  intros Hin Hunit. unfold _lithostrat_codes, Dict.of_list.
  destruct (@get_update_assigned Z unit_name []
              (map (fun cl : Z * label => (snd cl, fst cl))
                   (enumerate (unique_labels (map Lithostrat_unit (_df self))))))
    as (code & H & _).
  - rewrite codes_keys. apply In_unique_labels. rewrite <- Hunit.
    apply in_map, Hin.
  - eauto.
Qed.

(** What the list built for a row holds, when it is built. *)
Lemma data_row_Returns (self : t) (row : lith_row) (cells : list value) :
  data_row self row = Returns cells ->
  exists dep lith,
    cells = [VFloat (Depth_top row); dep; VInt lith] /\
    Dict.get (Lithostrat_unit row) (_lithostrat_codes self) = Some lith /\
    match Depositional_Environment row with
    | None => dep = VNone
    | Some field =>
        exists code,
          get_smda_code_for_dep_environment (dep_environments self) field
            = Returns code /\ dep = VInt code
    end.
Proof.
  unfold data_row, Dict.subscript.
  destruct (Depositional_Environment row) as [field|].
  - destruct (get_smda_code_for_dep_environment _ field) as [code| |];
      simpl; try discriminate.
    destruct (Dict.get _ _) as [lith|]; simpl; [|discriminate].
    intros H. injection H as <-. exists (VInt code), lith. eauto.
  - simpl. destruct (Dict.get _ _) as [lith|]; simpl; [|discriminate].
    intros H. injection H as <-. exists VNone, lith. auto.
Qed.

(** The list is built as soon as the unit is a text and the environment,
    if any, resolves. *)
Lemma data_row_total (self : t) (row : lith_row) :
  In row (_df self) ->
  Lithostrat_unit row <> Missing ->
  (forall field, Depositional_Environment row = Some field ->
     exists code,
       get_smda_code_for_dep_environment (dep_environments self) field
         = Returns code) ->
  exists cells, data_row self row = Returns cells.
Proof.
  intros Hin Hunit Hres. unfold data_row, Dict.subscript.
  destruct (Lithostrat_unit row) as [unit_name|] eqn:E; [|congruence].
  destruct (codes_defined self row Hin E) as [lith ->].
  destruct (Depositional_Environment row) as [field|].
  - destruct (Hres field eq_refl) as [code ->]. simpl. eauto.
  - simpl. eauto.
Qed.





Lemma data_of_log (self : t) (well_name : string) (doc : well_log) :
  get_webviz_well_log self well_name = Returns doc ->
  _get_log_data self well_name = Returns (data doc) /\
  header doc = _get_log_header self well_name /\
  curves doc = _get_log_curves /\
  metadata_discrete doc = _get_log_metadata_discrete self.
Proof.
  unfold get_webviz_well_log.
  destruct (_get_log_data self well_name) as [d| |]; simpl; try discriminate.
  intros H. injection H as <-. simpl. auto.
Qed.

(** *** Minimum and maximum of a column *)

Lemma qmin_cases (a b : Q) :
  (qmin a b = a \/ qmin a b = b) /\ (qmin a b <= a)%Q /\ (qmin a b <= b)%Q.
Proof.
  unfold qmin. destruct (Qle_bool a b) eqn:E.
  - apply Qle_bool_iff in E. repeat split; auto using Qle_refl.
  - assert (H : ~ (a <= b)%Q) by (rewrite <- Qle_bool_iff; congruence).
    apply Qnot_le_lt, Qlt_le_weak in H. repeat split; auto using Qle_refl.
Qed.

Lemma qmax_cases (a b : Q) :
  (qmax a b = a \/ qmax a b = b) /\ (a <= qmax a b)%Q /\ (b <= qmax a b)%Q.
Proof.
  unfold qmax. destruct (Qle_bool a b) eqn:E.
  - apply Qle_bool_iff in E. repeat split; auto using Qle_refl.
  - assert (H : ~ (a <= b)%Q) by (rewrite <- Qle_bool_iff; congruence).
    apply Qnot_le_lt, Qlt_le_weak in H. repeat split; auto using Qle_refl.
Qed.

Lemma fold_qmin (l : list Q) (x : Q) :
  In (fold_left qmin l x) (x :: l) /\
  forall y, In y (x :: l) -> (fold_left qmin l x <= y)%Q.
Proof.
  revert x. induction l as [|z l IH]; intros x; simpl.
  - split; [auto|]. intros y [<-|[]]. apply Qle_refl.
  - destruct (IH (qmin x z)) as [Hin Hle].
    destruct (qmin_cases x z) as (Hc & Hx & Hz). split.
    + destruct Hin as [Hin|Hin]; [|auto].
      destruct Hc as [Hc|Hc]; [left | right; left];
        rewrite <- Hin; symmetry; exact Hc.
    + intros y [<-|[<-|Hy]].
      * eapply Qle_trans; [apply Hle; left; reflexivity | exact Hx].
      * eapply Qle_trans; [apply Hle; left; reflexivity | exact Hz].
      * apply Hle. right. exact Hy.
Qed.

Lemma fold_qmax (l : list Q) (x : Q) :
  In (fold_left qmax l x) (x :: l) /\
  forall y, In y (x :: l) -> (y <= fold_left qmax l x)%Q.
Proof.
  revert x. induction l as [|z l IH]; intros x; simpl.
  - split; [auto|]. intros y [<-|[]]. apply Qle_refl.
  - destruct (IH (qmax x z)) as [Hin Hle].
    destruct (qmax_cases x z) as (Hc & Hx & Hz). split.
    + destruct Hin as [Hin|Hin]; [|auto].
      destruct Hc as [Hc|Hc]; [left | right; left];
        rewrite <- Hin; symmetry; exact Hc.
    + intros y [<-|[<-|Hy]].
      * eapply Qle_trans; [exact Hx | apply Hle; left; reflexivity].
      * eapply Qle_trans; [exact Hz | apply Hle; left; reflexivity].
      * apply Hle. right. exact Hy.
Qed.

Lemma series_min_spec (l : list Q) :
  l <> [] ->
  exists lo, series_min l = VFloat lo /\ In lo l /\
             forall y, In y l -> (lo <= y)%Q.
Proof.
  destruct l as [|x l]; [congruence|]. intros _.
  exists (fold_left qmin l x). split; [reflexivity | apply fold_qmin].
Qed.

Lemma series_max_spec (l : list Q) :
  l <> [] ->
  exists hi, series_max l = VFloat hi /\ In hi l /\
             forall y, In y l -> (y <= hi)%Q.
Proof.
  destruct l as [|x l]; [congruence|]. intros _.
  exists (fold_left qmax l x). split; [reflexivity | apply fold_qmax].
Qed.

(** *** The discrete metadata *)

Lemma Forall2_In_r {A B : Type} (P : A -> B -> Prop) (l : list A) (l' : list B) (y : B) :
  Forall2 P l l' -> In y l' -> exists x, In x l /\ P x y.
Proof.
  induction 1 as [|a b l l' Hab _ IH]; intros Hin; [contradiction|].
  destruct Hin as [<-|Hin].
  - exists a. split; [left; reflexivity | exact Hab].
  - destruct (IH Hin) as (x & Hx & Hp). exists x. split; [right|]; assumption.
Qed.

(** The two blocks sit under their two names. *)
Lemma metadata_two_blocks (self : t) :
  _get_log_metadata_discrete self =
  [(Text "Lithostrat_unit",
    {| attributes := ["color"; "code"];
       objects :=
         Dict.of_list
           (map (fun lc : label * Z => (fst lc, ([0; 0; 0; 255]%Z, snd lc)))
                (_lithostrat_codes self)) |});
   (Text "DepositionalEnvironment",
    {| attributes := ["color"; "code"];
       objects :=
         Dict.of_list
           (map (fun row =>
                   (Text (DEPOSITIONAL_ENVIRONMENT row),
                    ([R row; G row; B row; 255%Z], SMDA_code row)))
                (dep_environments self)) |})].
Proof. reflexivity. Qed.

(** A code of the code table is the code of an object of the block of
    the units. *)
Lemma unit_code_has_entry (self : t) (unit_cell : label) (code : Z) :
  Dict.get unit_cell (_lithostrat_codes self) = Some code ->
  has_entry (_get_log_metadata_discrete self) "Lithostrat_unit" code.
Proof.
  intros Hget. rewrite metadata_two_blocks.
  destruct unit_cell as [unit_name|]; [|rewrite get_Missing in Hget; discriminate].
  eexists _, (Text unit_name), [0; 0; 0; 255]%Z. split; [reflexivity|]. simpl.
  pose proof (get_In _ _ Hget) as Hin.
  destruct (@get_update_assigned _ unit_name []
              (map (fun lc : label * Z => (fst lc, ([0; 0; 0; 255]%Z, snd lc)))
                   (_lithostrat_codes self)))
    as (v & Hv & Hl).
  - unfold Dict.keys. rewrite map_map. simpl.
    apply (in_map fst) in Hin. exact Hin.
  - unfold Dict.of_list. rewrite Hv.
    apply in_map_iff in Hl as ([l' c'] & E & Hin'). simpl in E.
    injection E as -> <-.
    assert (Hc : Dict.get (Text unit_name) (_lithostrat_codes self) = Some c').
    { apply In_get; [apply codes_NoDup | exact Hin']. }
    congruence.
Qed.

(** A code of a row of the standard is the code of an object of the
    block of the environments, when rows of one label have one code. *)
Lemma smda_code_has_entry (self : t) (row : std_row) :
  (forall r1 r2, In r1 (dep_environments self) -> In r2 (dep_environments self) ->
     DEPOSITIONAL_ENVIRONMENT r1 = DEPOSITIONAL_ENVIRONMENT r2 ->
     SMDA_code r1 = SMDA_code r2) ->
  In row (dep_environments self) ->
  has_entry (_get_log_metadata_discrete self) "DepositionalEnvironment"
            (SMDA_code row).
Proof.
  intros Hsame Hin. rewrite metadata_two_blocks.
  destruct (@get_update_assigned _ (DEPOSITIONAL_ENVIRONMENT row) []
              (map (fun row =>
                      (Text (DEPOSITIONAL_ENVIRONMENT row),
                       ([R row; G row; B row; 255%Z], SMDA_code row)))
                   (dep_environments self)))
    as (v & Hv & Hl).
  - unfold Dict.keys. rewrite map_map. simpl.
    apply (in_map (fun r => Text (DEPOSITIONAL_ENVIRONMENT r))) in Hin. exact Hin.
  - apply in_map_iff in Hl as (row' & E & Hin'). injection E as El <-.
    eexists _, (Text (DEPOSITIONAL_ENVIRONMENT row)), _. split; [reflexivity|].
    simpl. unfold Dict.of_list. rewrite Hv.
    rewrite (Hsame row' row Hin' Hin El). reflexivity.
Qed.

End BuilderFacts.

(* ------------------------------------------------------------------ *)
(** ** Properties of the document of one well *)

Module Builder.
Import ColumnFacts DictFacts BuilderFacts.
Import DepositionalEnvironmentSMDAStandard DepositionalEnvironmentsWebviz.
Import Examples MoreExamples.




(** C4, as stated, fails: the two tables hold the same rows for A-1 and
    the same standard, and the documents built for A-1 differ, because
    the codes of the units are counted over the rows of every well. *)
Lemma C4_other_wells_change_the_codes :
  rows_of a1_only "A-1" = rows_of b2_then_a1 "A-1" /\
  dep_environments a1_only = dep_environments b2_then_a1 /\
  get_webviz_well_log a1_only "A-1" <> get_webviz_well_log b2_then_a1 "A-1".
Proof.
  split; [reflexivity | split; [reflexivity|]].
  intros H. vm_compute in H. discriminate.
Qed.

(** C4, amended: the document of a well depends on the rows of the
    well, on the standard, and on the distinct units of the whole table
    in the order they first appear; two tables that agree on these three
    give the same outcome for the well. *)
Theorem C4_document_depends_on (s1 s2 : t) (well_name : string) :
  dep_environments s1 = dep_environments s2 ->
  rows_of s1 well_name = rows_of s2 well_name ->
  unique_labels (map Lithostrat_unit (_df s1))
    = unique_labels (map Lithostrat_unit (_df s2)) ->
  get_webviz_well_log s1 well_name = get_webviz_well_log s2 well_name.
Proof.
  intros Hdep Hrows Huniq.
  assert (Hcodes : _lithostrat_codes s1 = _lithostrat_codes s2)
    by (unfold _lithostrat_codes; rewrite Huniq; reflexivity).
  unfold get_webviz_well_log, _get_log_data, _get_log_header,
    _get_log_metadata_discrete.
  rewrite Hrows, Hcodes, Hdep.
  rewrite (for_each_ext (data_row s1) (data_row s2)); [reflexivity|].
  intros row _. unfold data_row. rewrite Hcodes, Hdep. reflexivity.
Qed.

(** A row of another well that brings no new unit leaves the document
    of A-1 as it was. *)
Lemma C4_document_depends_on_witness :
  get_webviz_well_log a1_only "A-1" =
  get_webviz_well_log
    {| _df := (a1_rows ++ [interval "B-2" 1 2 "Shale" (Some "Lagoon")])%list;
       dep_environments := marine |} "A-1".
Proof.
  apply C4_document_depends_on; reflexivity.
Defined.

(** C5, as stated, fails: the rows of A-1 carry Sand, Shale, Sand, but
    a row of another well comes first, Sand is given 1 and not 0, and
    the codes in the data rows are 1, 2, 1. *)
Lemma C5_codes_count_every_well :
  map Lithostrat_unit (rows_of b2_then_a1 "A-1") = [Text "Sand"; Text "Shale"; Text "Sand"] /\
  Dict.get "Sand" (_lithostrat_codes b2_then_a1) = Some 1%Z /\
  exists d, _get_log_data b2_then_a1 "A-1" = Returns d /\
            column 2 d = [VInt 1; VInt 2; VInt 1].
Proof.
  split; [reflexivity | split; [reflexivity|]].
  eexists. split; [vm_compute; reflexivity | reflexivity].
Qed.

(** C5, amended: when Sand and Shale are, in this order, the distinct
    units of the whole table, and the rows of A-1 carry Sand, Shale,
    Sand, the code table is Sand 0, Shale 1 and the unit codes of the
    data rows are 0, 1, 0; the data rows are built when every
    environment of the well resolves. *)
Theorem C5_sand_shale_sand (self : t) :
  unique_labels (map Lithostrat_unit (_df self)) = [Text "Sand"; Text "Shale"] ->
  map Lithostrat_unit (rows_of self "A-1") = [Text "Sand"; Text "Shale"; Text "Sand"] ->
  _lithostrat_codes self = [(Text "Sand", 0%Z); (Text "Shale", 1%Z)] /\
  (forall d, _get_log_data self "A-1" = Returns d ->
     column 2 d = [VInt 0; VInt 1; VInt 0]) /\
  ((forall row field,
      In row (rows_of self "A-1") ->
      Depositional_Environment row = Some field ->
      exists code,
        get_smda_code_for_dep_environment (dep_environments self) field
          = Returns code) ->
   exists d, _get_log_data self "A-1" = Returns d).
Proof.
  intros Huniq Hrows.
  assert (Hcodes : _lithostrat_codes self = [(Text "Sand", 0%Z); (Text "Shale", 1%Z)])
    by (unfold _lithostrat_codes; rewrite Huniq; reflexivity).
  split; [exact Hcodes | split].
  - intros d H. apply for_each_Returns in H.
    destruct (rows_of self "A-1") as [|r1 [|r2 [|r3 [|r4 l]]]]; try discriminate.
    injection Hrows as H1 H2 H3.
    inversion H as [|a1 c1 l1 d1 Hc1 T1]; subst.
    inversion T1 as [|a2 c2 l2 d2 Hc2 T2]; subst.
    inversion T2 as [|a3 c3 l3 d3 Hc3 T3]; subst.
    inversion T3; subst.
    apply data_row_Returns in Hc1 as (dep1 & n1 & -> & G1 & _).
    apply data_row_Returns in Hc2 as (dep2 & n2 & -> & G2 & _).
    apply data_row_Returns in Hc3 as (dep3 & n3 & -> & G3 & _).
    rewrite Hcodes in G1, G2, G3. rewrite H1 in G1. rewrite H2 in G2.
    rewrite H3 in G3. simpl in G1, G2, G3.
    injection G1 as <-. injection G2 as <-. injection G3 as <-. reflexivity.
  - intros Hres. apply for_each_total. intros row Hin.
    apply data_row_total.
    + apply rows_of_In in Hin. tauto.
    + intros E. apply (in_map Lithostrat_unit) in Hin.
      rewrite Hrows, E in Hin.
      destruct Hin as [H|[H|[H|[]]]]; discriminate.
    + intros field Hf. eapply Hres; eauto.
Qed.

(** Well A-1 alone. *)
Lemma C5_sand_shale_sand_witness :
  _lithostrat_codes a1_only = [(Text "Sand", 0%Z); (Text "Shale", 1%Z)] /\
  (forall d, _get_log_data a1_only "A-1" = Returns d ->
     column 2 d = [VInt 0; VInt 1; VInt 0]) /\
  exists d, _get_log_data a1_only "A-1" = Returns d.
Proof.
  destruct (@C5_sand_shale_sand a1_only eq_refl eq_refl) as (H1 & H2 & H3).
  split; [exact H1 | split; [exact H2|]].
  apply H3. intros row field [<-|[<-|[<-|[]]]]; discriminate.
Defined.

(** C6, as stated, fails: no row of the table belongs to Z-9, and the
    request for Z-9 returns a document, with [nan] for both bounds and
    without data rows. *)
Lemma C6_unknown_well_gets_a_document :
  rows_of a1_only "Z-9" = [] /\
  exists doc,
    get_webviz_well_log a1_only "Z-9" = Returns doc /\
    startIndex (header doc) = VNaN /\
    endIndex (header doc) = VNaN /\
    data doc = [].
Proof.
  split; [reflexivity|]. eexists. split; [vm_compute; reflexivity|].
  repeat split.
Qed.

(** C6, amended: for a well without rows nothing is raised; the
    document returned has [nan] for [startIndex] and [endIndex], no data
    rows, and the curves and metadata of any other document. *)
Theorem C6_no_rows_no_error (self : t) (well_name : string) :
  (forall row, In row (_df self) ->
     unique_wellbore_identifier row <> well_name) ->
  get_webviz_well_log self well_name =
  Returns {| header := {| name := "BLOCKING"; well := well_name;
                          startIndex := VNaN; endIndex := VNaN;
                          step := VNone |};
             curves := _get_log_curves;
             data := [];
             metadata_discrete := _get_log_metadata_discrete self |}.
Proof.
  intros Hnone.
  assert (Hrows : rows_of self well_name = []).
  { apply filter_none. intros row Hin. apply String.eqb_neq, Hnone, Hin. }
  unfold get_webviz_well_log, _get_log_data, _get_log_header.
  rewrite Hrows. reflexivity.
Qed.

Lemma C6_no_rows_no_error_witness :
  get_webviz_well_log a1_only "Z-9" =
  Returns {| header := {| name := "BLOCKING"; well := "Z-9";
                          startIndex := VNaN; endIndex := VNaN;
                          step := VNone |};
             curves := _get_log_curves;
             data := [];
             metadata_discrete := _get_log_metadata_discrete a1_only |}.
Proof.
  apply C6_no_rows_no_error.
  intros row [<-|[<-|[<-|[]]]]; discriminate.
Defined.

(** C7, as stated, fails: the standard lists Marine twice, with codes 7
    and 8; the resolver takes the first row and the data row carries 7,
    the dictionary of objects keeps the last value and holds 8 only. *)
Lemma C7_duplicate_label_loses_a_code :
  exists doc,
    get_webviz_well_log a1_marine_twice "A-1" = Returns doc /\
    In [VFloat (inject_Z 10); VInt 7; VInt 0] (data doc) /\
    ~ has_entry (metadata_discrete doc) "DepositionalEnvironment" 7.
Proof.
  eexists. split; [vm_compute; reflexivity|]. split; [left; reflexivity|].
  intros (block & key & color & Hb & Hl). simpl in Hb.
  injection Hb as <-. simpl in Hl.
  destruct (Dict.key_eqb key "Marine"); discriminate.
Qed.

(** C7, amended: when the rows of the standard that share a label share
    their code, every integer of a data row has an object with that code
    under the name of the curve of its column; [None] is no integer and
    needs none.  The metadata hold the block of the units and the block
    of the standard, under two names. *)
Theorem C7_codes_have_entries (self : t) (well_name : string) (doc : well_log) :
  (forall r1 r2,
      In r1 (dep_environments self) -> In r2 (dep_environments self) ->
      DEPOSITIONAL_ENVIRONMENT r1 = DEPOSITIONAL_ENVIRONMENT r2 ->
      SMDA_code r1 = SMDA_code r2) ->
  get_webviz_well_log self well_name = Returns doc ->
  (forall cells i c code,
      In cells (data doc) ->
      nth_error (curves doc) i = Some c ->
      nth_error cells i = Some (VInt code) ->
      has_entry (metadata_discrete doc) (curve_name c) code)
  /\ Dict.keys (metadata_discrete doc)
     = [Text "Lithostrat_unit"; Text "DepositionalEnvironment"]
  /\ Dict.get "DepositionalEnvironment" (metadata_discrete doc) =
     Dict.get "DepositionalEnvironment"
       (get_webviz_well_log_metadata (dep_environments self)).
Proof.
  intros Hsame Hdoc.
  apply data_of_log in Hdoc as (Hd & _ & Hc & Hm). rewrite Hc, Hm.
  split; [|split; reflexivity].
  intros cells i c code Hin Hcurve Hcell.
  apply for_each_Returns in Hd.
  destruct (@Forall2_In_r _ _ _ _ _ _ Hd Hin) as (row & Hrow & Hcells).
  apply data_row_Returns in Hcells as (dep & lith & -> & Hl & Hdep).
  destruct i as [|[|[|i]]]; simpl in Hcurve, Hcell.
  - discriminate.
  - injection Hcurve as <-. injection Hcell as ->. simpl.
    destruct (Depositional_Environment row) as [field|]; [|discriminate].
    destruct Hdep as (code' & Hres & E). injection E as <-.
    apply ResolverFacts.resolve_in in Hres as (r & Hr & <-).
    apply smda_code_has_entry; assumption.
  - injection Hcurve as <-. injection Hcell as ->. simpl.
    eapply unit_code_has_entry; eassumption.
  - destruct i; discriminate.
Qed.

(** Well A-1 under the one-row standard, with an environment that the
    standard lists. *)
Lemma C7_codes_have_entries_witness :
  has_entry
    (_get_log_metadata_discrete
       {| _df := [interval "A-1" 10 20 "Sand" (Some "marine")];
          dep_environments := marine |})
    "DepositionalEnvironment" 7.
Proof.
  refine (proj1 (@C7_codes_have_entries
            {| _df := [interval "A-1" 10 20 "Sand" (Some "marine")];
               dep_environments := marine |} "A-1" _ _ eq_refl)
            [VFloat (inject_Z 10); VInt 7; VInt 0] 1%nat _ 7%Z _ eq_refl eq_refl).
  - intros r1 r2 [<-|[]] [<-|[]] _. reflexivity.
  - left. reflexivity.
Defined.

(** C8: for a well with a row in the table, [startIndex] is the top
    depth of a row of the table that belongs to the well, and no row of
    the table that belongs to the well has its top depth below it;
    [endIndex] is the base depth of a row of the well, and no row of the
    well has its base depth above it; [step] is [None]; this header is
    the header of the document built. *)
Theorem C8_header_bounds (self : t) (well_name : string) (row : lith_row) :
  In row (_df self) ->
  unique_wellbore_identifier row = well_name ->
  exists lo hi,
    startIndex (_get_log_header self well_name) = VFloat lo /\
    (exists r, In r (_df self) /\ unique_wellbore_identifier r = well_name /\
               Depth_top r = lo) /\
    (forall r, In r (_df self) -> unique_wellbore_identifier r = well_name ->
               (lo <= Depth_top r)%Q) /\
    endIndex (_get_log_header self well_name) = VFloat hi /\
    (exists r, In r (_df self) /\ unique_wellbore_identifier r = well_name /\
               Depth_base r = hi) /\
    (forall r, In r (_df self) -> unique_wellbore_identifier r = well_name ->
               (Depth_base r <= hi)%Q) /\
    step (_get_log_header self well_name) = VNone /\
    forall doc, get_webviz_well_log self well_name = Returns doc ->
                header doc = _get_log_header self well_name.
Proof.
  intros Hin Hw.
  assert (Hrow : In row (rows_of self well_name)) by (apply rows_of_In; auto).
  destruct (@series_min_spec (map Depth_top (rows_of self well_name)))
    as (lo & Hlo & Hlo_in & Hlo_le).
  { intros E. apply (in_map Depth_top) in Hrow. rewrite E in Hrow. exact Hrow. }
  destruct (@series_max_spec (map Depth_base (rows_of self well_name)))
    as (hi & Hhi & Hhi_in & Hhi_le).
  { intros E. apply (in_map Depth_base) in Hrow. rewrite E in Hrow. exact Hrow. }
  exists lo, hi. simpl. repeat split; try assumption.
  - apply in_map_iff in Hlo_in as (r & E & Hr). apply rows_of_In in Hr.
    exists r. tauto.
  - intros r Hr Hrw. apply Hlo_le, in_map, rows_of_In. auto.
  - apply in_map_iff in Hhi_in as (r & E & Hr). apply rows_of_In in Hr.
    exists r. tauto.
  - intros r Hr Hrw. apply Hhi_le, in_map, rows_of_In. auto.
  - intros doc Hdoc. apply data_of_log in Hdoc. tauto.
Qed.

(** Two wells, B-2 from 1 to 2 and A-1 below it: the bounds of A-1 are
    depths of rows of A-1, at least 10 and at most 45. *)
Lemma C8_header_bounds_witness :
  exists lo hi,
    startIndex (_get_log_header two_wells "A-1") = VFloat lo /\
    (exists r, In r (_df two_wells) /\ unique_wellbore_identifier r = "A-1" /\
               Depth_top r = lo) /\
    (forall r, In r (_df two_wells) -> unique_wellbore_identifier r = "A-1" ->
               (lo <= Depth_top r)%Q) /\
    endIndex (_get_log_header two_wells "A-1") = VFloat hi /\
    (exists r, In r (_df two_wells) /\ unique_wellbore_identifier r = "A-1" /\
               Depth_base r = hi) /\
    (forall r, In r (_df two_wells) -> unique_wellbore_identifier r = "A-1" ->
               (Depth_base r <= hi)%Q) /\
    step (_get_log_header two_wells "A-1") = VNone /\
    forall doc, get_webviz_well_log two_wells "A-1" = Returns doc ->
                header doc = _get_log_header two_wells "A-1".
Proof.
  apply (@C8_header_bounds two_wells "A-1"
           (interval "A-1" 20 30 "Shale" None)).
  - right. right. left. reflexivity.
  - reflexivity.
Defined.

End Builder.

(* ------------------------------------------------------------------ *)
(** ** Properties of the callback *)

Module Synchronizer.
Import DepositionalEnvironmentsWebviz Examples.

(** C9, as stated, fails: the only row of A-1 names an environment that
    the standard does not list; the selection of A-1 raises and returns
    no sequences. *)
Lemma C9_failing_well_raises :
  _set_well a1_lagoon ["A-1"] = Raises IndexError /\
  forall out, _set_well a1_lagoon ["A-1"] <> Returns out.
Proof.
  assert (H : _set_well a1_lagoon ["A-1"] = Raises IndexError)
    by (vm_compute; reflexivity).
  split; [exact H|]. intros out. rewrite H. discriminate.
Qed.

(** C9, amended: when the document of every selected well is built,
    the callback returns four sequences as long as the selection: the
    documents of the wells in the order of the selection, the templates,
    the spacers, and the distances, which are the spacers.  The empty
    selection returns four empty sequences. *)
Theorem C9_four_sequences (lith : t) (well_names : list string) :
  (forall w, In w well_names ->
     exists doc, get_webviz_well_log lith w = Returns doc) ->
  (exists logs templates spacers distances,
      _set_well lith well_names = Returns (logs, templates, spacers, distances) /\
      length logs = length well_names /\
      length templates = length well_names /\
      length spacers = length well_names /\
      length distances = length well_names /\
      Forall2 (fun w doc => get_webviz_well_log lith w = Returns doc)
              well_names logs /\
      distances = spacers)
  /\ _set_well lith [] = Returns ([], [], [], []).
Proof.
  intros Hall. split; [|reflexivity].
  destruct (for_each_total (get_webviz_well_log lith) well_names Hall)
    as [logs Hlogs].
  exists logs, (map (fun _ => well_template) well_names),
    (map (fun _ => 200%Z) well_names), (map (fun _ => 200%Z) well_names).
  unfold _set_well. rewrite Hlogs. simpl.
  rewrite !length_map.
  repeat split.
  - eapply for_each_length, Hlogs.
  - apply for_each_Returns, Hlogs.
Qed.

(** The selection A-1, B-2. *)
Lemma C9_four_sequences_witness :
  exists logs templates spacers distances,
    _set_well b2_then_a1 ["A-1"; "B-2"]
      = Returns (logs, templates, spacers, distances) /\
    length logs = 2 /\ length templates = 2 /\
    length spacers = 2 /\ length distances = 2 /\
    Forall2 (fun w doc => get_webviz_well_log b2_then_a1 w = Returns doc)
            ["A-1"; "B-2"] logs /\
    distances = spacers.
Proof.
  apply (proj1 (@C9_four_sequences b2_then_a1 ["A-1"; "B-2"]
    (fun w Hin =>
       match Hin with
       | or_introl E =>
           eq_ind "A-1"
             (fun w => exists doc, get_webviz_well_log b2_then_a1 w = Returns doc)
             (ex_intro _ _ eq_refl) w E
       | or_intror (or_introl E) =>
           eq_ind "B-2"
             (fun w => exists doc, get_webviz_well_log b2_then_a1 w = Returns doc)
             (ex_intro _ _ eq_refl) w E
       | or_intror (or_intror F) => match F with end
       end))).
Defined.

End Synchronizer.

(* ------------------------------------------------------------------ *)
(** ** The code table, the wells and the bounds *)

Module TableFacts.
Import Dict DictFacts ColumnFacts BuilderFacts.
Import DepositionalEnvironmentSMDAStandard DepositionalEnvironmentsWebviz.

Lemma rows_of_nil (self : t) (well_name : string) :
  rows_of self well_name = [] <-> ~ In well_name (wells self).
Proof.
  unfold wells. rewrite In_unique, in_map_iff. split.
  - intros E (row & Hw & Hin).
    assert (H : In row (rows_of self well_name)) by (apply rows_of_In; auto).
    rewrite E in H. exact H.
  - intros H. apply filter_none. intros row Hin. apply String.eqb_neq.
    intros E. apply H. eauto.
Qed.
End TableFacts.

Module Tables.
Import Dict DictFacts ColumnFacts BuilderFacts TableFacts.
Import DepositionalEnvironmentSMDAStandard DepositionalEnvironmentsWebviz.
Import Examples MoreExamples.



(** X2: rows added at the end of the table leave every code as it was. *)
Theorem X2_codes_survive_appended_rows (self : t) (more : list lith_row)
  (unit_name : string) (code : Z) :
  get (Text unit_name) (_lithostrat_codes self) = Some code ->
  get (Text unit_name)
    (_lithostrat_codes {| _df := (_df self ++ more)%list;
                          dep_environments := dep_environments self |})
    = Some code.
Proof.
  intros H. rewrite codes_zip in *. cbn [_df].
  rewrite map_app, unique_labels_app. unfold enumerate.
  rewrite enumerate_from_app, map_app. apply get_app_l. exact H.
Qed.

Lemma X2_codes_survive_appended_rows_witness :
  get (Text "Shale")
    (_lithostrat_codes
       {| _df := (_df a1_only ++ [interval "C-3" 5 6 "Coal" None])%list;
          dep_environments := dep_environments a1_only |})
    = Some 1%Z.
Proof.
  apply (@X2_codes_survive_appended_rows a1_only
           [interval "C-3" 5 6 "Coal" None] "Shale" 1%Z).
  reflexivity.
Defined.

(** X3: [wells] lists every well that has a row, once; the header of a
    well has [nan] for its bounds exactly when the well is not listed,
    and numbers otherwise. *)
Theorem X3_wells_and_nan_bounds (self : t) (well_name : string) :
  NoDup (wells self) /\
  (In well_name (wells self) <->
   exists row, In row (_df self) /\ unique_wellbore_identifier row = well_name) /\
  (startIndex (_get_log_header self well_name) = VNaN <->
   ~ In well_name (wells self)) /\
  (endIndex (_get_log_header self well_name) = VNaN <->
   ~ In well_name (wells self)).
Proof.
  split; [apply NoDup_unique|]. split.
  - unfold wells. rewrite In_unique, in_map_iff. split.
    + intros (row & E & Hin). eauto.
    + intros (row & Hin & E). eauto.
  - rewrite <- rows_of_nil. simpl.
    destruct (rows_of self well_name) as [|row rows]; simpl.
    + split; tauto.
    + split; split; discriminate.
Qed.

(** X4: every depth of the data of a document lies on or above
    [startIndex]; it lies on or below [endIndex], and [startIndex] on or
    below [endIndex], when every interval of the well has its top at most
    its base. *)
Theorem X4_depths_within_bounds (self : t) (well_name : string)
  (doc : well_log) (cells : list value) :
  get_webviz_well_log self well_name = Returns doc ->
  In cells (data doc) ->
  exists lo hi md,
    startIndex (header doc) = VFloat lo /\
    endIndex (header doc) = VFloat hi /\
    nth_error cells 0 = Some (VFloat md) /\
    (lo <= md)%Q /\
    ((forall row, In row (rows_of self well_name) ->
        (Depth_top row <= Depth_base row)%Q) ->
     (md <= hi)%Q /\ (lo <= hi)%Q).
Proof.
  intros Hdoc Hin. apply data_of_log in Hdoc as (Hd & Hh & _). rewrite Hh.
  apply for_each_Returns in Hd.
  destruct (@Forall2_In_r _ _ _ _ _ _ Hd Hin) as (row & Hrow & Hcells).
  apply data_row_Returns in Hcells as (dep & lith & -> & _).
  destruct (@series_min_spec (map Depth_top (rows_of self well_name)))
    as (lo & Hlo & _ & Hlo_le).
  { intros E. apply (in_map Depth_top) in Hrow. rewrite E in Hrow. exact Hrow. }
  destruct (@series_max_spec (map Depth_base (rows_of self well_name)))
    as (hi & Hhi & _ & Hhi_le).
  { intros E. apply (in_map Depth_base) in Hrow. rewrite E in Hrow. exact Hrow. }
  exists lo, hi, (Depth_top row). simpl.
  assert (Hlm : (lo <= Depth_top row)%Q) by (apply Hlo_le, in_map, Hrow).
  repeat split; try assumption.
  - eapply Qle_trans; [apply H, Hrow | apply Hhi_le, in_map, Hrow].
  - eapply Qle_trans; [exact Hlm|].
    eapply Qle_trans; [apply H, Hrow | apply Hhi_le, in_map, Hrow].
Qed.

(** Well A-1 of the two wells, second row. *)
Lemma X4_depths_within_bounds_witness :
  exists lo hi md,
    startIndex (_get_log_header two_wells "A-1") = VFloat lo /\
    endIndex (_get_log_header two_wells "A-1") = VFloat hi /\
    nth_error [VFloat (inject_Z 20); VNone; VInt 2] 0 = Some (VFloat md) /\
    (lo <= md)%Q /\
    ((forall row, In row (rows_of two_wells "A-1") ->
        (Depth_top row <= Depth_base row)%Q) ->
     (md <= hi)%Q /\ (lo <= hi)%Q).
Proof.
  exact (@X4_depths_within_bounds two_wells "A-1" _
           [VFloat (inject_Z 20); VNone; VInt 2] eq_refl
           (or_intror (or_introl eq_refl))).
Defined.

(** X5: the block of the units in the metadata lists the distinct units
    of the whole table once each, a missing unit being one of them, in
    the order of first appearance, all in black, each with its position
    as code. *)
Theorem X5_unit_block (self : t) :
  exists block,
    get (Text "Lithostrat_unit") (_get_log_metadata_discrete self) = Some block /\
    attributes block = ["color"; "code"] /\
    objects block =
    map (fun cl : Z * label => (snd cl, ([0; 0; 0; 255]%Z, fst cl)))
        (enumerate (unique_labels (map Lithostrat_unit (_df self)))).
Proof.
  rewrite metadata_two_blocks. eexists. split; [reflexivity|].
  split; [reflexivity|]. simpl.
  rewrite of_list_NoDup.
  - rewrite codes_zip, map_map. reflexivity.
  - unfold keys. rewrite map_map. simpl. apply codes_NoDup.
Qed.

End Tables.

(* ------------------------------------------------------------------ *)
(** ** More about the standard *)

Module StandardFacts.
Import Text Re ReFacts ResolverFacts Dict DictFacts ColumnFacts.
Import DepositionalEnvironmentSMDAStandard.

Lemma ci_prefix_refl (q s : string) : ci_prefix q (q ++ s) = true.
Proof.
  induction q as [|c q IH]; simpl; [reflexivity|].
  unfold ci_eq. rewrite Ascii.eqb_refl. exact IH.
Qed.

Lemma ci_substring_refl (q : string) : ci_substring q q = true.
Proof.
  destruct q as [|c q]; [reflexivity|].
  cbn [ci_substring]. rewrite <- (append_empty_r (String c q)) at 2.
  rewrite ci_prefix_refl. reflexivity.
Qed.

(** The substring test looks at the lowered texts only. *)
Lemma ci_substring_lower (q1 q2 s : string) :
  lower_str q1 = lower_str q2 -> ci_substring q1 s = ci_substring q2 s.
Proof.
  intros E. apply bool_ext. rewrite !ci_substring_spec.
  split; intros (p & u & v & Hs & Hu); exists p, u, v; split; congruence.
Qed.

Lemma search_Alt (ic : bool) (r1 r2 : regex) (s : string) :
  search ic (Alt r1 r2) s = search ic r1 s || search ic r2 s.
Proof.
  apply bool_ext. rewrite orb_true_iff, !search_spec. split.
  - intros (p & u & v & E & H). inversion H; subst; [left | right]; eauto.
  - intros [(p & u & v & E & H) | (p & u & v & E & H)]; exists p, u, v;
      (split; [exact E|]); [apply lang_alt_l | apply lang_alt_r]; exact H.
Qed.

Lemma parse_plain_end (q : string) (cur : frame) :
  plain q = true ->
  parse_from cur [] q =
  Returns (fold_left (fun acc a => Alt a acc) (alts cur)
             (fold_left (fun acc it => Cat (it_re it) acc) (items cur)
                        (lits q))).
Proof.
  intros H. rewrite <- (append_empty_r q) at 1.
  rewrite parse_plain by exact H. simpl.
  unfold close, seq_of. rewrite push_lits_alts, push_lits_seq. reflexivity.
Qed.

(** Two texts without special characters around a bar compile to the
    choice between them. *)
Lemma compile_bar (a b : string) :
  plain a = true -> plain b = true ->
  compile (a ++ "|" ++ b) = Returns (Alt (lits a) (lits b)).
Proof.
  intros Ha Hb. unfold compile.
  rewrite parse_plain by exact Ha. cbn [append parse_from].
  change (is_in "|" "|") with true. cbv iota.
  rewrite parse_plain_end by exact Hb. simpl.
  unfold seq_of. rewrite push_lits_seq, push_lits_alts. reflexivity.
Qed.

(** The block of the standard has an object with the code of each of its
    rows, when rows of one label have one code. *)
Lemma standard_code_has_entry (self : t) (row : std_row) :
  (forall r1 r2, In r1 self -> In r2 self ->
     DEPOSITIONAL_ENVIRONMENT r1 = DEPOSITIONAL_ENVIRONMENT r2 ->
     SMDA_code r1 = SMDA_code r2) ->
  In row self ->
  has_entry (get_webviz_well_log_metadata self) "DepositionalEnvironment"
            (SMDA_code row).
Proof.
  intros Hsame Hin.
  destruct (@get_update_assigned _ (DEPOSITIONAL_ENVIRONMENT row) []
              (map (fun row =>
                      (Text (DEPOSITIONAL_ENVIRONMENT row),
                       ([R row; G row; B row; 255%Z], SMDA_code row)))
                   self))
    as (v & Hv & Hl).
  - unfold Dict.keys. rewrite map_map. simpl.
    apply (in_map (fun r => Text (DEPOSITIONAL_ENVIRONMENT r))) in Hin. exact Hin.
  - apply in_map_iff in Hl as (row' & E & Hin'). injection E as El <-.
    eexists _, (Text (DEPOSITIONAL_ENVIRONMENT row)), _. split; [reflexivity|].
    simpl. unfold Dict.of_list. rewrite Hv.
    rewrite (Hsame row' row Hin' Hin El). reflexivity.
Qed.
End StandardFacts.

Module Standard.
Import Text Re ReFacts ResolverFacts Dict DictFacts ColumnFacts StandardFacts.
Import DepositionalEnvironmentSMDAStandard.
Import Examples MoreExamples.

(** X6: the lookup of a label by its code raises [IndexError], a
    [LookupError], exactly when no row of the standard has the code;
    otherwise it returns the label of the first row that has it. *)
Theorem X6_label_of_code (self : t) (smda_code : Z) :
  (get_dep_environment_for_smda_code self smda_code = Raises IndexError <->
   forall row, In row self -> SMDA_code row <> smda_code)
  /\ is_LookupError IndexError = true
  /\ (forall pre hit post,
        self = (pre ++ hit :: post)%list ->
        (forall row, In row pre -> SMDA_code row <> smda_code) ->
        SMDA_code hit = smda_code ->
        get_dep_environment_for_smda_code self smda_code
          = Returns (DEPOSITIONAL_ENVIRONMENT hit)).
Proof.
  unfold get_dep_environment_for_smda_code. split; [|split; [reflexivity|]].
  - destruct (filter _ self) as [|hit rest] eqn:F.
    + split; [intros _ | reflexivity]. intros row Hin E.
      assert (H : In row (filter (fun r => Z.eqb (SMDA_code r) smda_code) self))
        by (apply filter_In; split; [exact Hin | apply Z.eqb_eq, E]).
      rewrite F in H. exact H.
    + split; [discriminate|]. intros H. exfalso.
      apply filter_head in F as [Hin E]. apply Z.eqb_eq in E.
      exact (H hit Hin E).
  - intros pre hit post -> Hpre Hhit. rewrite filter_first.
    + reflexivity.
    + intros row Hin. apply Z.eqb_neq, Hpre, Hin.
    + apply Z.eqb_eq, Hhit.
Qed.

(** Three entries: code 5 is the second row, code 4 is of no row. *)
Lemma X6_label_of_code_witness :
  get_dep_environment_for_smda_code three_entries 5 = Returns "Shallow marine" /\
  get_dep_environment_for_smda_code three_entries 4 = Raises IndexError.
Proof.
  split.
  - apply (proj2 (proj2 (@X6_label_of_code three_entries 5%Z))
                 [std "Fluvial" 3] (std "Shallow marine" 5) [std "Marine" 7] eq_refl).
    + intros row [<-|[]]. discriminate.
    + reflexivity.
  - apply (proj1 (@X6_label_of_code three_entries 4%Z)).
    intros row [<-|[<-|[<-|[]]]]; discriminate.
Defined.

(** X7: from a row to its code and back.  When the label of a row has no
    special characters, occurs in no label of an earlier row, and no
    earlier row has the code of the row, the label resolves to the code of
    the row and the code to its label. *)
Theorem X7_label_code_label (pre post : t) (row : std_row) :
  plain (DEPOSITIONAL_ENVIRONMENT row) = true ->
  (forall r, In r pre ->
     ci_substring (DEPOSITIONAL_ENVIRONMENT row) (DEPOSITIONAL_ENVIRONMENT r)
       = false) ->
  (forall r, In r pre -> SMDA_code r <> SMDA_code row) ->
  get_smda_code_for_dep_environment (pre ++ row :: post)%list
    (DEPOSITIONAL_ENVIRONMENT row) = Returns (SMDA_code row) /\
  get_dep_environment_for_smda_code (pre ++ row :: post)%list (SMDA_code row)
    = Returns (DEPOSITIONAL_ENVIRONMENT row).
Proof.
  intros Hplain Hlabel Hcode. split.
  - rewrite (resolve_plain _ _ Hplain). rewrite filter_first.
    + reflexivity.
    + exact Hlabel.
    + apply ci_substring_refl.
  - unfold get_dep_environment_for_smda_code. rewrite filter_first.
    + reflexivity.
    + intros r Hin. apply Z.eqb_neq, Hcode, Hin.
    + apply Z.eqb_refl.
Qed.

(** Fluvial goes to 3 and back.  Marine, the third entry, does not make
    the trip: its text occurs in the second label, and it resolves to 5. *)
Lemma X7_label_code_label_witness :
  (get_smda_code_for_dep_environment three_entries "Fluvial" = Returns 3%Z /\
   get_dep_environment_for_smda_code three_entries 3 = Returns "Fluvial") /\
  get_smda_code_for_dep_environment three_entries "Marine" = Returns 5%Z.
Proof.
  split.
  - apply (@X7_label_code_label [] [std "Shallow marine" 5; std "Marine" 7]
             (std "Fluvial" 3) eq_refl).
    + intros r [].
    + intros r [].
  - reflexivity.
Defined.

(** X8: the resolver ignores the case of its argument: two texts without
    special characters that are equal once lowered have the same
    outcome. *)
Theorem X8_case_of_argument (self : t) (q1 q2 : string) :
  plain q1 = true -> plain q2 = true ->
  lower_str q1 = lower_str q2 ->
  get_smda_code_for_dep_environment self q1 =
  get_smda_code_for_dep_environment self q2.
Proof.
  intros H1 H2 E. rewrite (resolve_plain _ _ H1), (resolve_plain _ _ H2).
  rewrite (filter_ext _ (fun row => ci_substring q2 (DEPOSITIONAL_ENVIRONMENT row)));
    [reflexivity|].
  intros row. apply ci_substring_lower, E.
Qed.

Lemma X8_case_of_argument_witness :
  get_smda_code_for_dep_environment three_entries "Fluvial" =
  get_smda_code_for_dep_environment three_entries "fLUVIAL".
Proof.
  apply X8_case_of_argument; reflexivity.
Defined.

(** X9: rows added at the end of the standard do not change a code that
    is resolved, whatever the argument; an argument that does not compile
    does not compile under any standard. *)
Theorem X9_resolved_code_survives (self more : t) (q : string) :
  (forall code,
      get_smda_code_for_dep_environment self q = Returns code ->
      get_smda_code_for_dep_environment (self ++ more)%list q = Returns code)
  /\
  (get_smda_code_for_dep_environment self q = Raises ReError ->
   get_smda_code_for_dep_environment more q = Raises ReError).
Proof.
  unfold get_smda_code_for_dep_environment.
  destruct (compile q) as [pat| |]; simpl.
  - split.
    + intros code. rewrite filter_app.
      destruct (filter _ self) as [|row rest]; [discriminate|]. simpl. auto.
    + destruct (filter _ self); discriminate.
  - split; [discriminate | auto].
  - split; discriminate.
Qed.

Lemma X9_resolved_code_survives_witness :
  get_smda_code_for_dep_environment (marine ++ three_entries)%list "mar.ne"
    = Returns 7%Z /\
  get_smda_code_for_dep_environment three_entries "mar(ne" = Raises ReError.
Proof.
  split.
  - apply (proj1 (@X9_resolved_code_survives marine three_entries "mar.ne")).
    reflexivity.
  - apply (proj2 (@X9_resolved_code_survives marine three_entries "mar(ne")).
    reflexivity.
Defined.

(** X10: a bar in the argument is a choice: with texts without special
    characters on its two sides, the resolver returns the code of the
    first row whose label contains one of the two, and raises
    [IndexError] when no label contains either. *)
Theorem X10_bar_is_a_choice (self : t) (a b : string) :
  plain a = true -> plain b = true ->
  ((forall row, In row self ->
      ci_substring a (DEPOSITIONAL_ENVIRONMENT row) = false /\
      ci_substring b (DEPOSITIONAL_ENVIRONMENT row) = false) ->
   get_smda_code_for_dep_environment self (a ++ "|" ++ b) = Raises IndexError)
  /\
  (forall pre hit post,
      self = (pre ++ hit :: post)%list ->
      (forall row, In row pre ->
         ci_substring a (DEPOSITIONAL_ENVIRONMENT row) = false /\
         ci_substring b (DEPOSITIONAL_ENVIRONMENT row) = false) ->
      ci_substring a (DEPOSITIONAL_ENVIRONMENT hit) = true \/
      ci_substring b (DEPOSITIONAL_ENVIRONMENT hit) = true ->
      get_smda_code_for_dep_environment self (a ++ "|" ++ b)
        = Returns (SMDA_code hit)).
Proof.
  intros Ha Hb. unfold get_smda_code_for_dep_environment.
  rewrite (compile_bar _ _ Ha Hb). simpl.
  rewrite (filter_ext _ (fun row =>
             ci_substring a (DEPOSITIONAL_ENVIRONMENT row) ||
             ci_substring b (DEPOSITIONAL_ENVIRONMENT row)))
    by (intros row; rewrite search_Alt, !search_lits; reflexivity).
  split.
  - intros Hnone. rewrite filter_none; [reflexivity|].
    intros row Hin. destruct (Hnone row Hin) as [-> ->]. reflexivity.
  - intros pre hit post -> Hpre Hhit. rewrite filter_first.
    + reflexivity.
    + intros row Hin. destruct (Hpre row Hin) as [-> ->]. reflexivity.
    + apply orb_true_iff, Hhit.
Qed.

Lemma X10_bar_is_a_choice_witness :
  get_smda_code_for_dep_environment three_entries "delta|marine" = Returns 5%Z /\
  get_smda_code_for_dep_environment three_entries "delta|lagoon" = Raises IndexError.
Proof.
  split.
  - apply (proj2 (@X10_bar_is_a_choice three_entries "delta" "marine" eq_refl eq_refl)
                 [std "Fluvial" 3] (std "Shallow marine" 5) [std "Marine" 7] eq_refl).
    + intros row [<-|[]]. split; reflexivity.
    + right. reflexivity.
  - apply (proj1 (@X10_bar_is_a_choice three_entries "delta" "lagoon" eq_refl eq_refl)).
    intros row [<-|[<-|[<-|[]]]]; split; reflexivity.
Defined.

(** X11: the metadata of the standard are one block, under the name
    DepositionalEnvironment; it has one object for each distinct label,
    in the order of first appearance, and the object of a label carries
    the colour, with alpha 255, and the code of the last row with that
    label. *)
Theorem X11_standard_block (self : t) :
  exists block,
    get_webviz_well_log_metadata self
      = [(Text "DepositionalEnvironment", block)] /\
    attributes block = ["color"; "code"] /\
    keys (objects block) = map Text (unique (map DEPOSITIONAL_ENVIRONMENT self)) /\
    forall pre row post,
      self = (pre ++ row :: post)%list ->
      (forall r, In r post ->
         DEPOSITIONAL_ENVIRONMENT r <> DEPOSITIONAL_ENVIRONMENT row) ->
      get (Text (DEPOSITIONAL_ENVIRONMENT row)) (objects block)
        = Some ([R row; G row; B row; 255%Z], SMDA_code row).
Proof.
  eexists. split; [reflexivity|]. split; [reflexivity|]. simpl. split.
  - rewrite <- (map_map
                  (fun row => (DEPOSITIONAL_ENVIRONMENT row,
                               ([R row; G row; B row; 255%Z], SMDA_code row)))
                  (fun p => (Text (fst p), snd p))).
    rewrite keys_of_texts, map_map. reflexivity.
  - intros pre row post -> Hpost. rewrite map_app. simpl.
    unfold of_list. apply get_update_last.
    unfold keys. rewrite map_map. simpl. intros Hin.
    apply in_map_iff in Hin as (r & E & Hr). apply (Hpost r Hr). congruence.
Qed.

(** Marine listed twice: one object, with the code of the second row. *)
Lemma X11_standard_block_witness :
  exists block,
    get_webviz_well_log_metadata marine_twice
      = [(Text "DepositionalEnvironment", block)] /\
    keys (objects block) = [Text "Marine"] /\
    get (Text "Marine") (objects block) = Some ([0; 0; 255; 255]%Z, 8%Z).
Proof.
  destruct (X11_standard_block marine_twice) as (block & H1 & _ & H3 & H4).
  exists block. split; [exact H1|]. split; [exact H3|].
  apply (H4 [std "Marine" 7] (std "Marine" 8) [] eq_refl).
  intros r [].
Defined.

End Standard.

(* ------------------------------------------------------------------ *)
(** ** More about the callbacks and the script with well picks *)

Module CallbackFacts.
Import Dict DictFacts ColumnFacts BuilderFacts.
Import DepositionalEnvironmentSMDAStandard DepositionalEnvironmentsWebviz.

Lemma for_each_app {A B : Type} (f : A -> outcome B) (l1 l2 : list A)
  (b1 b2 : list B) :
  for_each f l1 = Returns b1 -> for_each f l2 = Returns b2 ->
  for_each f (l1 ++ l2) = Returns (b1 ++ b2)%list.
Proof.
  revert b1. induction l1 as [|a l1 IH]; intros b1 H1 H2; simpl in *.
  - injection H1 as <-. exact H2.
  - destruct (f a) as [b| |]; simpl in *; try discriminate.
    destruct (for_each f l1) as [bs| |]; simpl in *; try discriminate.
    injection H1 as <-. rewrite (IH bs eq_refl H2). reflexivity.
Qed.



Lemma picks_data_of_log (self : t) (well_name : string) (doc : well_log) :
  WithWellpicks.get_webviz_well_log self well_name = Returns doc ->
  WithWellpicks._get_log_data self well_name = Returns (data doc) /\
  curves doc = WithWellpicks._get_log_curves /\
  metadata_discrete doc = get_webviz_well_log_metadata (dep_environments self).
Proof.
  unfold WithWellpicks.get_webviz_well_log.
  destruct (WithWellpicks._get_log_data self well_name) as [d| |]; simpl;
    try discriminate.
  intros H. injection H as <-. simpl. auto.
Qed.
End CallbackFacts.

Module Callbacks.
Import Dict DictFacts ColumnFacts BuilderFacts TableFacts StandardFacts CallbackFacts.
Import DepositionalEnvironmentSMDAStandard DepositionalEnvironmentsWebviz.
Import Examples MoreExamples.

(** X12: the callback of the synced script stops at the first selected
    well whose document is not built: it raises the error of that well,
    whatever is selected after it. *)
Theorem X12_first_failing_well (lith : t) (pre post : list string)
  (w : string) (e : exn) :
  (forall w', In w' pre ->
     exists doc, get_webviz_well_log lith w' = Returns doc) ->
  get_webviz_well_log lith w = Raises e ->
  _set_well lith (pre ++ w :: post) = Raises e.
Proof.
  intros Hpre Hw. unfold _set_well.
  rewrite (for_each_first_failure (get_webviz_well_log lith) pre post w Hpre Hw).
  reflexivity.
Qed.

(** Z-9 has no rows and its document is built; A-1 names Lagoon. *)
Lemma X12_first_failing_well_witness :
  _set_well a1_lagoon ["Z-9"; "A-1"; "B-2"] = Raises IndexError.
Proof.
  apply (@X12_first_failing_well a1_lagoon ["Z-9"] ["B-2"] "A-1" IndexError).
  - intros w' [<-|[]]. eexists. reflexivity.
  - reflexivity.
Defined.

(** X13: what the callback of the synced script returns for two
    selections one after the other is what it returns for each, joined
    output by output. *)
Theorem X13_selections_join (lith : t) (ws1 ws2 : list string)
  (logs1 logs2 : list well_log) (ts1 ts2 : list template)
  (sp1 sp2 ds1 ds2 : list Z) :
  _set_well lith ws1 = Returns (logs1, ts1, sp1, ds1) ->
  _set_well lith ws2 = Returns (logs2, ts2, sp2, ds2) ->
  _set_well lith (ws1 ++ ws2) =
  Returns ((logs1 ++ logs2)%list, (ts1 ++ ts2)%list,
           (sp1 ++ sp2)%list, (ds1 ++ ds2)%list).
Proof.
  unfold _set_well. intros H1 H2.
  destruct (for_each (get_webviz_well_log lith) ws1) as [l1| |] eqn:F1;
    simpl in H1; try discriminate.
  destruct (for_each (get_webviz_well_log lith) ws2) as [l2| |] eqn:F2;
    simpl in H2; try discriminate.
  injection H1 as <- <- <- <-. injection H2 as <- <- <- <-.
  rewrite (for_each_app _ _ _ F1 F2). simpl. rewrite !map_app. reflexivity.
Qed.

Lemma X13_selections_join_witness :
  exists a b,
    _set_well two_wells ["A-1"; "B-2"] =
    Returns ([a; b], [well_template; well_template], [200; 200], [200; 200])%Z.
Proof.
  eexists _, _.
  apply (@X13_selections_join two_wells ["A-1"] ["B-2"]
           [_] [_] [_] [_] [_] [_] [_] [_] eq_refl eq_refl).
Defined.



(** X15: the picks of a well and the data rows of its synced document go
    pair by pair: the same depth, and the unit code of the row is the
    code of the horizon of the pick in the code table. *)
Theorem X15_picks_match_rows (self : t) (well_name : string)
  (d : list (list value)) :
  _get_log_data self well_name = Returns d ->
  Forall2
    (fun pick cells =>
       exists top label dep code,
         pick = [PDepth top; PHorizon label] /\
         cells = [VFloat top; dep; VInt code] /\
         get label (_lithostrat_codes self) = Some code)
    (WithWellpicks._get_pick_data self well_name) d.
Proof.
  intros H. apply for_each_Returns in H.
  unfold WithWellpicks._get_pick_data.
  induction H as [|row cells rows d' Hrow _ IH]; simpl; constructor.
  - apply data_row_Returns in Hrow as (dep & lith & -> & Hl & _).
    exists (Depth_top row), (Lithostrat_unit row), dep, lith. auto.
  - exact IH.
Qed.

Lemma X15_picks_match_rows_witness :
  Forall2
    (fun pick cells =>
       exists top label dep code,
         pick = [PDepth top; PHorizon label] /\
         cells = [VFloat top; dep; VInt code] /\
         get label (_lithostrat_codes two_wells) = Some code)
    (WithWellpicks._get_pick_data two_wells "B-2")
    [[VFloat (inject_Z 1); VInt 3; VInt 0]].
Proof.
  apply (@X15_picks_match_rows two_wells "B-2"). reflexivity.
Defined.

(** X16: the callback of the script with well picks raises [IndexError]
    for the empty selection, and for every selection when the table has
    no rows; an error of the document of the first selected well is its
    error. *)
Theorem X16_one_well_callback_errors (lith : t) :
  WithWellpicks._set_well lith [] = Raises IndexError /\
  (_df lith = [] ->
   forall well_names, WithWellpicks._set_well lith well_names = Raises IndexError) /\
  (forall w ws e,
      WithWellpicks.get_webviz_well_log lith w = Raises e ->
      WithWellpicks._set_well lith (w :: ws) = Raises e).
Proof.
  split; [reflexivity | split].
  - intros E [|w ws]; [reflexivity|].
    unfold WithWellpicks._set_well, WithWellpicks.get_webviz_well_log,
      WithWellpicks._get_log_data, rows_of, wells.
    rewrite E. reflexivity.
  - intros w ws e H. unfold WithWellpicks._set_well. simpl. rewrite H. reflexivity.
Qed.

Lemma X16_one_well_callback_errors_witness :
  WithWellpicks._set_well no_rows ["A-1"] = Raises IndexError /\
  WithWellpicks._set_well a1_lagoon ["A-1"; "B-2"] = Raises IndexError.
Proof.
  split.
  - apply (proj1 (proj2 (X16_one_well_callback_errors no_rows)) eq_refl).
  - apply (proj2 (proj2 (X16_one_well_callback_errors a1_lagoon))).
    reflexivity.
Defined.

(** X17: when it returns, the callback of the script with well picks
    returns the document of the first selected well, whatever else is
    selected, and the picks of the well of the first row of the table,
    whichever well is selected. *)
Theorem X17_one_well_callback (lith : t) (first_row : lith_row)
  (rest : list lith_row) (w : string) (ws : list string) (log : well_log) :
  _df lith = first_row :: rest ->
  WithWellpicks.get_webviz_well_log lith w = Returns log ->
  WithWellpicks._set_well lith (w :: ws) =
  Returns (log,
           {| wellpick :=
                WithWellpicks.get_webviz_well_picks lith
                  (unique_wellbore_identifier first_row);
              wp_name := "HORIZON";
              wp_color := "Stratigraphy";
              colorTables := WithWellpicks.callback_color_tables |}).
Proof.
  intros E H. unfold WithWellpicks._set_well. simpl. rewrite H. simpl.
  unfold wells. rewrite E. reflexivity.
Qed.

(** A-1 is selected; the first row of the table is of B-2, and the picks
    returned are those of B-2. *)
Lemma X17_one_well_callback_witness :
  exists log picks,
    WithWellpicks._set_well two_wells ["A-1"; "B-2"] = Returns (log, picks) /\
    well (header log) = "A-1" /\
    pick_well (picks_header (wellpick picks)) = "B-2".
Proof.
  eexists _, _. split; [|split].
  - apply (@X17_one_well_callback two_wells _ _ "A-1" ["B-2"] _ eq_refl eq_refl).
  - reflexivity.
  - reflexivity.
Defined.

(** X18: in a document of the script with well picks, every integer of a
    data row has an object with that code under the name of the curve of
    its column, when the rows of the standard that share a label share
    their code. *)
Theorem X18_picks_codes_have_entries (self : t) (well_name : string)
  (doc : well_log) :
  (forall r1 r2,
      In r1 (dep_environments self) -> In r2 (dep_environments self) ->
      DEPOSITIONAL_ENVIRONMENT r1 = DEPOSITIONAL_ENVIRONMENT r2 ->
      SMDA_code r1 = SMDA_code r2) ->
  WithWellpicks.get_webviz_well_log self well_name = Returns doc ->
  forall cells i c code,
    In cells (data doc) ->
    nth_error (curves doc) i = Some c ->
    nth_error cells i = Some (VInt code) ->
    has_entry (metadata_discrete doc) (curve_name c) code.
Proof.
  intros Hsame Hdoc cells i c code Hin Hcurve Hcell.
  apply picks_data_of_log in Hdoc as (Hd & Hc & Hm). rewrite Hm.
  rewrite Hc in Hcurve. apply for_each_Returns in Hd.
  destruct (@Forall2_In_r _ _ _ _ _ _ Hd Hin) as (row & Hrow & Hcells).
  unfold WithWellpicks.data_row in Hcells.
  destruct (Depositional_Environment row) as [field|]; simpl in Hcells.
  - destruct (get_smda_code_for_dep_environment _ field) as [code'| |] eqn:Hres;
      simpl in Hcells; try discriminate.
    injection Hcells as <-.
    destruct i as [|[|i]]; simpl in Hcurve, Hcell.
    + discriminate.
    + injection Hcurve as <-. injection Hcell as <-. simpl.
      apply ResolverFacts.resolve_in in Hres as (r & Hr & <-).
      apply standard_code_has_entry; assumption.
    + destruct i; discriminate.
  - injection Hcells as <-.
    destruct i as [|[|i]]; simpl in Hcell; try discriminate.
    destruct i; discriminate.
Qed.

Lemma X18_picks_codes_have_entries_witness :
  has_entry (get_webviz_well_log_metadata three_entries)
            "DepositionalEnvironment" 5.
Proof.
  refine (@X18_picks_codes_have_entries two_wells "A-1" _ _ eq_refl
            [VFloat (inject_Z 10); VInt 5] 1%nat _ 5%Z _ eq_refl eq_refl).
  - intros r1 r2 [<-|[<-|[<-|[]]]] [<-|[<-|[<-|[]]]] E;
      try reflexivity; discriminate.
  - left. reflexivity.
Defined.

End Callbacks.

(* ------------------------------------------------------------------ *)
(** ** The shape of a document and the errors of its build *)

Module ShapeFacts.
Import Text Re Dict DictFacts BuilderFacts CallbackFacts.
Import DepositionalEnvironmentSMDAStandard DepositionalEnvironmentsWebviz.



Lemma for_each_Raises {A B : Type} (f : A -> outcome B) (l : list A) (e : exn) :
  for_each f l = Raises e -> exists a, In a l /\ f a = Raises e.
Proof.
  induction l as [|a l IH]; simpl; [discriminate|].
  destruct (f a) as [b| |] eqn:Fa; simpl.
  - destruct (for_each f l) as [bs| |]; simpl; try discriminate.
    intros H. destruct (IH H) as (x & Hx & Fx). eauto.
  - intros H. injection H as <-. eauto.
  - discriminate.
Qed.



End ShapeFacts.

Module Shape.
Import Text Re Dict DictFacts BuilderFacts CallbackFacts ShapeFacts.
Import DepositionalEnvironmentSMDAStandard DepositionalEnvironmentsWebviz.
Import Examples MoreExamples.



(** X20: in a document that is built there is one data row for each row
    of the well and one cell in each data row for each curve, three in
    the synced script and two in the script with well picks; the picks
    have one row of two cells for each row of the well. *)
Theorem X20_rows_and_columns (self : t) (well_name : string) :
  (forall doc,
      get_webviz_well_log self well_name = Returns doc ->
      length (data doc) = length (rows_of self well_name) /\
      forall cells, In cells (data doc) -> length cells = length (curves doc)) /\
  (forall doc,
      WithWellpicks.get_webviz_well_log self well_name = Returns doc ->
      length (data doc) = length (rows_of self well_name) /\
      forall cells, In cells (data doc) -> length cells = length (curves doc)) /\
  length (picks_data (WithWellpicks.get_webviz_well_picks self well_name))
    = length (rows_of self well_name) /\
  (forall cells,
      In cells (picks_data (WithWellpicks.get_webviz_well_picks self well_name)) ->
      length cells
        = length (picks_curves (WithWellpicks.get_webviz_well_picks self well_name))).
Proof.
  split; [|split; [|split]].
  - intros doc Hdoc. apply data_of_log in Hdoc as (Hd & _ & Hc & _).
    split; [apply (for_each_length _ _ Hd)|].
    intros cells Hin. rewrite Hc. apply for_each_Returns in Hd.
    destruct (@Forall2_In_r _ _ _ _ _ _ Hd Hin) as (row & _ & Hcells).
    apply data_row_Returns in Hcells as (dep & lith & -> & _). reflexivity.
  - intros doc Hdoc. apply picks_data_of_log in Hdoc as (Hd & Hc & _).
    split; [apply (for_each_length _ _ Hd)|].
    intros cells Hin. rewrite Hc. apply for_each_Returns in Hd.
    destruct (@Forall2_In_r _ _ _ _ _ _ Hd Hin) as (row & _ & Hcells).
    unfold WithWellpicks.data_row in Hcells.
    destruct (Depositional_Environment row) as [field|]; simpl in Hcells.
    + destruct (get_smda_code_for_dep_environment _ field); simpl in Hcells;
        try discriminate.
      injection Hcells as <-. reflexivity.
    + injection Hcells as <-. reflexivity.
  - simpl. unfold WithWellpicks._get_pick_data. apply length_map.
  - simpl. unfold WithWellpicks._get_pick_data. intros cells Hin.
    apply in_map_iff in Hin as (row & <- & _). reflexivity.
Qed.

(** Well A-1 of the two wells: three rows, of three cells in the one
    script and of two in the other. *)
Lemma X20_rows_and_columns_witness :
  (exists doc,
      get_webviz_well_log two_wells "A-1" = Returns doc /\
      length (data doc) = 3 /\
      forall cells, In cells (data doc) -> length cells = 3) /\
  (exists doc,
      WithWellpicks.get_webviz_well_log two_wells "A-1" = Returns doc /\
      length (data doc) = 3 /\
      forall cells, In cells (data doc) -> length cells = 2).
Proof.
  split; eexists; (split; [reflexivity|]).
  - apply (proj1 (@X20_rows_and_columns two_wells "A-1") _ eq_refl).
  - apply (proj1 (proj2 (@X20_rows_and_columns two_wells "A-1")) _ eq_refl).
Defined.

End Shape.
